(** * Strautomator core: the FIT parser (src/fitparser/index.ts)

    A shallow embedding of [FitParser.parse] and
    [FitParser.getMatchingActivity], and the properties of the summary
    they compute; then of [FitParser.getProcessedActivities], of the battery
    tracker of [GearWear.updateBatteryTracking] (src/gearwear/index.ts),
    which calls the matcher, and of the data of [GDPR.generateArchive].

    Conventions of the embedding.
    - A JavaScript value is a [value]; a plain object (a decoded message,
      the summary handed in by the caller) is a [gmap string value].
    - A finite number is an exact rational: the binary rounding of IEEE-754
      doubles, the infinities and the negative zero are outside the model.
      [NaN] is kept, because the code produces it.
    - A string is the sequence of its code units, restricted to the units
      below 256.
    - [logger] and [logHelper] calls only write to the log and are left out,
      and with them the two checksum comparisons of lines 65-82, whose only
      effect is a warning in the log. *)

From Stdlib Require Import ZArith QArith Qround Qabs String Ascii List Lia Lqa.
From Stdlib.Strings Require Import Byte.
From stdpp Require Import base gmap strings list fin_maps pretty sorting.

#[local] Set Warnings "-register-all".
#[local] Open Scope Z_scope.

(** ** Values *)

Inductive value : Type :=
| VUndef
| VNull
| VBool (b : bool)
| VNum (q : Q)
| VNaN
| VStr (s : string)
| VDate (ms : Z)
| VObj (o : gmap string value)
| VArr (l : list value).

(** The three conversions of the runtime that the embedding keeps abstract:
    [Number::toString] on a number that is not an integer below 10^21 in
    absolute value (shortest round-trip decimal of a double),
    [StringToNumber] ([None] is NaN) and [Date.prototype.toString] (which
    depends on the time zone of the host). *)
Class Runtime := {
  fractionToString : Q → string;
  stringToNumber : string → option Q;
  dateToString : Z → string
}.

Module JS.
Section Coercions.
Context {RT : Runtime}.

(** ToBoolean. *)
Definition truthy (v : value) : bool :=
  match v with
  | VUndef | VNull | VNaN => false
  | VBool b => b
  | VNum q => negb (Qeq_bool q 0%Q)
  | VStr s => negb (String.eqb s "")
  | VDate _ | VObj _ | VArr _ => true
  end.

(** lodash [_.isNil]. *)
Definition isNil (v : value) : bool :=
  match v with
  | VUndef | VNull => true
  | _ => false
  end.

(** A number as a value, in lowest terms. *)
Definition ofNumber (n : option Q) : value :=
  match n with
  | Some q => VNum (Qred q)
  | None => VNaN
  end.

Definition isInteger (q : Q) : bool := (Qden (Qred q) =? 1)%positive.

(** Number::toString. *)
Definition numberToString (q : Q) : string :=
  if isInteger q && (Z.abs (Qnum (Qred q)) <? 10 ^ 21)
  then pretty (Qnum (Qred q))
  else fractionToString (Qred q).

Definition joinComma (l : list string) : string :=
  match l with
  | [] => ""
  | x :: r => fold_left (λ acc y, acc +:+ "," +:+ y) r x
  end.

(** ToString. An array is joined with commas, its null and undefined
    elements printed as the empty string. *)
Fixpoint toString (v : value) : string :=
  match v with
  | VUndef => "undefined"
  | VNull => "null"
  | VBool true => "true"
  | VBool false => "false"
  | VNum q => numberToString q
  | VNaN => "NaN"
  | VStr s => s
  | VDate ms => dateToString ms
  | VObj _ => "[object Object]"
  | VArr l =>
      joinComma (List.map (λ x, match x with
                                | VUndef | VNull => ""
                                | _ => toString x
                                end) l)
  end.

(** ToNumber ([None] is NaN); a Date converts to its time value. *)
Definition toNumber (v : value) : option Q :=
  match v with
  | VUndef | VNaN | VObj _ => None
  | VNull => Some 0%Q
  | VBool b => Some (if b then 1%Q else 0%Q)
  | VNum q => Some q
  | VStr s => stringToNumber s
  | VDate ms => Some (inject_Z ms)
  | VArr _ => stringToNumber (toString v)
  end.

(** ToPrimitive with no hint: Dates, objects and arrays become strings. *)
Definition toPrimitive (v : value) : value :=
  match v with
  | VDate _ | VObj _ | VArr _ => VStr (toString v)
  | _ => v
  end.

(** ToPrimitive with hint number: a Date becomes its time value. *)
Definition toPrimitiveNumber (v : value) : value :=
  match v with
  | VDate ms => VNum (inject_Z ms)
  | VObj _ | VArr _ => VStr (toString v)
  | _ => v
  end.

Definition lift2 (f : Q → Q → Q) (a b : option Q) : option Q :=
  match a, b with
  | Some x, Some y => Some (f x y)
  | _, _ => None
  end.

(** [a + b]: concatenation as soon as one primitive is a string. *)
Definition add (a b : value) : value :=
  match toPrimitive a, toPrimitive b with
  | VStr x, pb => VStr (x +:+ toString pb)
  | pa, VStr y => VStr (toString pa +:+ y)
  | pa, pb => ofNumber (lift2 Qplus (toNumber pa) (toNumber pb))
  end.

(** [a - b]. *)
Definition sub (a b : value) : value :=
  ofNumber (lift2 Qminus (toNumber a) (toNumber b)).

(** [a / k] for a positive literal or an array length [k]. *)
Definition divBy (a : value) (k : positive) : value :=
  ofNumber (option_map (λ x, x / inject_Z (Z.pos k))%Q (toNumber a)).

(** [a <= b]: strings compare by code units, anything else as numbers,
    and a NaN on either side gives false. *)
Definition le (a b : value) : bool :=
  match toPrimitiveNumber a, toPrimitiveNumber b with
  | VStr x, VStr y => String.leb x y
  | _, _ =>
      match toNumber a, toNumber b with
      | Some x, Some y => Qle_bool x y
      | _, _ => false
      end
  end.

(** [a >= b]. *)
Definition ge (a b : value) : bool := le b a.

(** [a > 0]. *)
Definition positive_number (a : value) : bool :=
  match toNumber a with
  | Some x => negb (Qle_bool x 0%Q)
  | None => false
  end.

(** [Math.round]: the nearest integer, a half going up. *)
Definition roundHalfUp (q : Q) : Z := Qfloor (q + (1 # 2))%Q.

Definition mathRound (a : value) : value :=
  ofNumber (option_map (λ x, inject_Z (roundHalfUp x)) (toNumber a)).

(** [n.toFixed(1)] read back by [parseFloat]: the nearest multiple of one
    tenth, a half going away from zero. *)
Definition roundTenth (q : Q) : Q :=
  if Qle_bool 0%Q q
  then (inject_Z (Qfloor (q * 10 + (1 # 2))) / 10)%Q
  else (- (inject_Z (Qfloor (- q * 10 + (1 # 2))) / 10))%Q.

Definition parseFloatToFixed1 (a : value) : value :=
  match a with
  | VNum q => VNum (Qred (roundTenth q))
  | _ => VNaN
  end.

(** Property read [o.k] on a plain object; on a value that is not an
    object the keys read by the parser name no property. *)
Definition getField (o : gmap string value) (k : string) : value :=
  default VUndef (o !! k).

Definition getProp (v : value) (k : string) : value :=
  match v with
  | VObj o => getField o k
  | _ => VUndef
  end.

(** [v.length]. *)
Definition lengthOf (v : value) : value :=
  match v with
  | VArr l => VNum (inject_Z (Z.of_nat (List.length l)))
  | VStr s => VNum (inject_Z (Z.of_nat (String.length s)))
  | VObj o => getField o "length"
  | _ => VUndef
  end.

(** *** lodash *)

(** [baseSum]: undefined entries are skipped, the others added with [+];
    undefined when nothing was added. *)
Definition baseSum (vals : list value) : value :=
  fold_left (λ result current,
               match current with
               | VUndef => result
               | _ => match result with
                      | VUndef => current
                      | _ => add result current
                      end
               end) vals VUndef.

(** [_.sumBy(array, key)]. *)
Definition sumBy (array : list (gmap string value)) (key : string) : value :=
  match array with
  | [] => VNum 0%Q
  | _ => baseSum (List.map (λ o, getField o key) array)
  end.

(** [_.mean]. *)
Definition mean (vals : list value) : value :=
  match vals with
  | [] => VNaN
  | _ => divBy (baseSum vals) (Pos.of_nat (List.length vals))
  end.

(** [_.without(Object.values(_.pick(o, keys)), null, undefined)]. *)
Definition pickedValues (o : gmap string value) (keys : list string) : list value :=
  List.filter (λ v, negb (isNil v)) (omap (λ k, o !! k) keys).

(** [_.uniqBy(array, f)]: the first element of each [f]-class, in order. *)
Fixpoint uniqByFrom {A} (f : A → string) (seen : list string) (array : list A) : list A :=
  match array with
  | [] => []
  | x :: r =>
      if bool_decide (f x ∈ seen) then uniqByFrom f seen r
      else x :: uniqByFrom f (f x :: seen) r
  end.

Definition uniqBy {A} (f : A → string) (array : list A) : list A :=
  uniqByFrom f [] array.

(** *** Strings *)

Definition filterString (p : ascii → bool) (s : string) : string :=
  string_of_list_ascii (List.filter p (list_ascii_of_string s)).

Definition codeUnit (c : ascii) : N := N_of_ascii c.

(** The class [\s] below 256: tab, line feed, vertical tab, form feed,
    carriage return, space and the no-break space. *)
Definition isSpace (c : ascii) : bool :=
  let n := codeUnit c in
  ((9 <=? n) && (n <=? 13) || (n =? 32) || (n =? 160))%N.

Definition isUnderscore (c : ascii) : bool := (codeUnit c =? 95)%N.
End Coercions.
End JS.

(** ** The collaborators of the parser that src/fitparser/index.ts imports *)

(** [FIT.types.product] of ./fit: product names by manufacturer, then by
    product code. *)
Class Profile := {
  product : gmap string (gmap string value)
}.

(** What [readRecord] of ./binary returns. *)
Record RecordResult := {
  nextIndex : Z;
  messageType : string;
  message : option (gmap string value)
}.

(** Modelled from the spec: [readRecord] of ./binary is not in the sources.
    It produces the next cursor position, the message kind name and the
    decoded field map of one record, reading the buffer at the cursor and
    the per-file definition tables ([messageTypes] and [developerFields],
    which it updates); the cursor advances with every record. [parse]
    passes it the options and the paused time too, and always an undefined
    [startDate]. *)
Class Decoder := {
  Tables : Type;
  noTables : Tables;
  readRecord : list byte → Tables → Z → value → value → Tables * RecordResult;
  readRecord_advances :
    ∀ blob t i options paused, i < nextIndex (readRecord blob t i options paused).2
}.

(** How a call of [parse] ends: it returns, or it throws; either way the
    summary it was handed is left in the state given. *)
Inductive completion : Type :=
| Normal (fitFileActivity : gmap string value)
| Abrupt (error : string) (fitFileActivity : gmap string value).

Definition summaryOf (c : completion) : gmap string value :=
  match c with
  | Normal s | Abrupt _ s => s
  end.

Module FitParser.
Import JS.

(** *** Header *)

Definition byteAt (blob : list byte) (i : nat) : Z :=
  default 0 ((λ b, Z.of_N (Byte.to_N b)) <$> blob !! i).

(** [x << n] on 32-bit integers. *)
Definition shl32 (x n : Z) : Z :=
  (Z.shiftl x n + 2 ^ 31) mod 2 ^ 32 - 2 ^ 31.

Definition fileTypeString (blob : list byte) : string :=
  string_of_list_ascii (List.map ascii_of_byte (take 4 (drop 8 blob))).

Definition dataLength (blob : list byte) : Z :=
  byteAt blob 4 + shl32 (byteAt blob 5) 8 + shl32 (byteAt blob 6) 16
  + shl32 (byteAt blob 7) 24.

Definition defaultOptions : value :=
  VObj (<["force" := VBool true]>
       (<["speedUnit" := VStr "m/s"]>
       (<["lengthUnit" := VStr "m"]>
       (<["temperatureUnit" := VStr "celsius"]>
       (<["elapsedRecordField" := VBool false]> ∅))))).

(** *** The decoding loop *)

(** The locals of [parse] that the loop updates. [buckets] holds the arrays
    [sessions], [laps], ... under the names of their variables. *)
Record LoopState {DC : Decoder} := {
  fitObj : gmap string value;
  buckets : gmap string (list (gmap string value));
  tables : Tables;
  loopIndex : Z;
  lastStopTimestamp : value;
  pausedTime : value
}.

Definition bucket (bs : gmap string (list (gmap string value))) (name : string)
  : list (gmap string value) :=
  default [] (bs !! name).

Definition push (name : string) (m : gmap string value)
    (bs : gmap string (list (gmap string value)))
  : gmap string (list (gmap string value)) :=
  <[name := bucket bs name ++ [m]]> bs.

(** The cases of the switch that only push the message. *)
Definition pushOnly : list (string * string) :=
  [("lap", "laps"); ("session", "sessions"); ("workout_step", "workoutSteps");
   ("length", "lengths"); ("field_description", "fieldDescriptions");
   ("developer_data_id", "applications"); ("dive_gas", "diveGases");
   ("course_point", "coursePoints"); ("sport", "sports");
   ("file_id", "fileIds"); ("definition", "definitions");
   ("monitoring", "monitors"); ("monitoring_info", "monitorInfo");
   ("stress_level", "stress")].

Definition isString (v : value) (s : string) : bool :=
  match v with
  | VStr x => String.eqb x s
  | _ => false
  end.

Section Loop.
Context {RT : Runtime} {PF : Profile} {DC : Decoder}.

(** case "event". *)
Definition timerEvent (m : gmap string value) (lastStop paused : value) : value * value :=
  if isString (getField m "event") "timer" then
    if isString (getField m "event_type") "stop_all" then
      (getField m "timestamp", paused)
    else if isString (getField m "event_type") "start" && truthy lastStop then
      (lastStop, add paused (divBy (sub (getField m "timestamp") lastStop) 1000))
    else (lastStop, paused)
  else (lastStop, paused).

(** case "device_info": the product name is filled in from the profile.
    The array holds the very object that is then updated, so the element
    pushed is the updated one. *)
Definition withProductName (m : gmap string value) : gmap string value :=
  if negb (truthy (getField m "product_name"))
     && truthy (getField m "manufacturer") && truthy (getField m "product")
  then
    match product !! toString (getField m "manufacturer") with
    | Some productNames =>
        if truthy (getField productNames (toString (getField m "product")))
        then <["product_name" :=
                 getField productNames (toString (getField m "product"))]> m
        else m
    | None => m
    end
  else m.

Definition dispatch (st : LoopState) (kind : string) (m : gmap string value) : LoopState :=
  if String.eqb kind "event" then
    let '(lastStop, paused) := timerEvent m (lastStopTimestamp st) (pausedTime st) in
    {| fitObj := fitObj st; buckets := push "events" m (buckets st);
       tables := tables st; loopIndex := loopIndex st;
       lastStopTimestamp := lastStop; pausedTime := paused |}
  else if String.eqb kind "device_info" then
    {| fitObj := fitObj st;
       buckets := push "devices" (withProductName m) (buckets st);
       tables := tables st; loopIndex := loopIndex st;
       lastStopTimestamp := lastStopTimestamp st; pausedTime := pausedTime st |}
  else if String.eqb kind "software" then
    {| fitObj := <["software" := VObj m]> (fitObj st); buckets := buckets st;
       tables := tables st; loopIndex := loopIndex st;
       lastStopTimestamp := lastStopTimestamp st; pausedTime := pausedTime st |}
  else
    match list_to_map (M := gmap string string) pushOnly !! kind with
    | Some name =>
        {| fitObj := fitObj st; buckets := push name m (buckets st);
           tables := tables st; loopIndex := loopIndex st;
           lastStopTimestamp := lastStopTimestamp st;
           pausedTime := pausedTime st |}
    | None =>
        if String.eqb kind "" then st
        else
          {| fitObj := <[kind := VObj m]> (fitObj st); buckets := buckets st;
             tables := tables st; loopIndex := loopIndex st;
             lastStopTimestamp := lastStopTimestamp st;
             pausedTime := pausedTime st |}
    end.

(** One turn of the while loop. *)
Definition step (blob : list byte) (options : value) (st : LoopState) : LoopState :=
  let r := readRecord blob (tables st) (loopIndex st) options (pausedTime st) in
  let st' :=
    {| fitObj := fitObj st; buckets := buckets st;
       tables := r.1; loopIndex := nextIndex r.2;
       lastStopTimestamp := lastStopTimestamp st; pausedTime := pausedTime st |} in
  match message r.2 with
  | Some m => dispatch st' (messageType r.2) m
  | None => st'
  end.

(** [while (loopIndex < crcStart)], at most [fuel] turns. *)
Fixpoint loop (fuel : nat) (blob : list byte) (options : value) (crcStart : Z)
    (st : LoopState) : LoopState :=
  match fuel with
  | O => st
  | S fuel' =>
      if loopIndex st <? crcStart
      then loop fuel' blob options crcStart (step blob options st)
      else st
  end.

Definition initialState (protocolVersion profileVersion headerLength : Z) : LoopState :=
  {| fitObj := <["profileVersion" := VNum (inject_Z profileVersion)]>
               (<["protocolVersion" := VNum (inject_Z protocolVersion)]> ∅);
     buckets := ∅; tables := noTables; loopIndex := headerLength;
     lastStopTimestamp := VUndef; pausedTime := VNum 0%Q |}.
End Loop.

(** *** The summary *)

(** The key or keys of a session that feed one field of the summary. *)
Inductive fieldKey : Type :=
| One (key : string)
| Several (keys : list string).

Definition fields : list (string * fieldKey) :=
  [("primaryBenefit", One "primary_benefit");
   ("intensityFactor", One "intensity_factor");
   ("tss", One "training_stress_score");
   ("trainingLoad", One "training_load");
   ("aerobicTrainingEffect", One "total_training_effect");
   ("anaerobicTrainingEffect", One "total_anaerobic_effect");
   ("pedalSmoothness",
    Several ["avg_combined_pedal_smoothness"; "avg_left_pedal_smoothness";
             "avg_right_pedal_smoothness"]);
   ("pedalTorqueEffect",
    Several ["avg_left_torque_effectiveness"; "avg_right_torque_effectiveness"]);
   ("pedalBalance", One "left_right_balance")].

Definition primaryBenefits : list string :=
  ["None"; "Recovery"; "Base"; "Tempo"; "Threshold"; "VO2Max"; "Anaerobic";
   "Sprint"].

Section Summary.
Context {RT : Runtime}.

(** Lines 211-213. *)
Definition sessionTotals (sessions : list (gmap string value))
    (s : gmap string value) : gmap string value :=
  <["totalTime" := mathRound (sumBy sessions "total_elapsed_time")]>
    (<["distance" :=
         parseFloatToFixed1 (divBy (sumBy sessions "total_distance") 1000)]> s).

(** The value a session gives for a field: the mean of the values picked
    when the key is an array, undefined when none is picked. *)
Definition sessionValue (session : gmap string value) (k : fieldKey) : value :=
  match k with
  | One key => getField session key
  | Several keys =>
      match pickedValues session keys with
      | [] => VUndef
      | vals => mean vals
      end
  end.

Definition mergeField (s : gmap string value) (field : string) (v : value)
  : gmap string value :=
  if negb (truthy (getField s field)) && negb (isNil v)
  then <[field := v]> s
  else s.

Definition mergeSession (table : list (string * fieldKey))
    (s session : gmap string value) : gmap string value :=
  fold_left (λ s fk, mergeField s fk.1 (sessionValue session fk.2)) table s.

(** Lines 229-248. *)
Definition mergeSessions (table : list (string * fieldKey))
    (sessions : list (gmap string value)) (s : gmap string value)
  : gmap string value :=
  fold_left (mergeSession table) sessions s.

(** The replace of line 253: the code units from 128 up are removed. *)
Definition stripNonAscii (s : string) : string :=
  filterString (λ c, (codeUnit c <? 128)%N) s.

(** Lines 251-255: [replace] exists on strings only. *)
Fixpoint sportProfile (sports : list (gmap string value)) (s : gmap string value)
  : completion :=
  match sports with
  | [] => Normal s
  | sp :: rest =>
      if truthy (getField sp "name") then
        match getField sp "name" with
        | VStr name => sportProfile rest (<["sportProfile" := VStr (stripNonAscii name)]> s)
        | _ => Abrupt "TypeError: sp.name.replace is not a function" s
        end
      else sportProfile rest s
  end.

(** Lines 259-263. *)
Definition roundField (s : gmap string value) (field : string) : gmap string value :=
  if truthy (getField s field)
  then <[field := mathRound (getField s field)]> s
  else s.

Definition roundFields (s : gmap string value) : gmap string value :=
  fold_left roundField ["trainingLoad"; "pedalSmoothness"; "pedalTorqueEffect"] s.

(** Lines 266-273. *)
Definition workoutDetails (fitObj s : gmap string value) : gmap string value :=
  let workout := getField fitObj "workout" in
  let s1 := if truthy (getProp workout "wkt_name")
            then <["workoutName" := getProp workout "wkt_name"]> s else s in
  if truthy (getProp workout "notes")
  then <["workoutNotes" := getProp workout "notes"]> s1 else s1.

(** [a || b]. *)
Definition or (a b : value) : value := if truthy a then a else b.

Definition getDeviceString (d : gmap string value) : string :=
  filterString (λ c, negb (isSpace c))
    (filterString (λ c, negb (isUnderscore c))
       (toString (getField d "manufacturer") +:+ "."
        +:+ toString (or (getField d "product_name")
                       (or (getField d "device_type")
                          (or (getField d "source_type")
                             (getField d "device_index"))))
        +:+ "." +:+ toString (getField d "serial_number"))).

Definition validDevice (d : gmap string value) : bool :=
  truthy (getField d "manufacturer") && truthy (getField d "serial_number").

Definition validDevices (devices : list (gmap string value))
  : list (gmap string value) :=
  uniqBy getDeviceString (List.filter validDevice devices).

Definition batteryEntry (d : gmap string value) : value :=
  VObj (<["id" := VStr (getDeviceString d)]>
       (<["status" := getField d "battery_status"]> ∅)).

(** Lines 276-292. *)
Definition deviceIds (devices : list (gmap string value)) (s : gmap string value)
  : gmap string value :=
  match devices with
  | [] => s
  | _ =>
      let s1 := <["devices" :=
                    VArr (List.map (λ d, VStr (getDeviceString d))
                            (validDevices devices))]> s in
      match List.filter (λ d, truthy (getField d "battery_status"))
              (validDevices devices) with
      | [] => s1
      | batteryDevices =>
          <["deviceBattery" := VArr (List.map batteryEntry batteryDevices)]> s1
      end
  end.

(** [table[v]] on an array of strings: the key is the string of [v]; the
    members inherited from [Array.prototype] are left out. *)
Fixpoint elementFrom (i : nat) (table : list string) (key : string) : value :=
  match table with
  | [] => VUndef
  | x :: rest =>
      if String.eqb (pretty (Z.of_nat i)) key then VStr x
      else elementFrom (S i) rest key
  end.

Definition elementAt (table : list string) (v : value) : value :=
  if String.eqb (toString v) "length"
  then VNum (inject_Z (Z.of_nat (List.length table)))
  else elementFrom 0 table (toString v).

(** Lines 295-298. *)
Definition decodePrimaryBenefit (s : gmap string value) : gmap string value :=
  if truthy (getField s "primaryBenefit")
  then <["primaryBenefit" := elementAt primaryBenefits (getField s "primaryBenefit")]> s
  else s.

(** Lines 301-308. *)
Definition decodePedalBalance (s : gmap string value) : gmap string value :=
  let balance := getField s "pedalBalance" in
  if truthy (getProp balance "right") && le (getProp balance "value") (VNum 10000%Q)
  then
    let right := mathRound (divBy (getProp balance "value") 100) in
    let left := sub (VNum 100%Q) right in
    <["pedalBalance" :=
        VStr ("L " +:+ toString left +:+ "% / R " +:+ toString right +:+ "%")]> s
  else delete "pedalBalance" s.

(** Lines 310-313: the devices are spread into the logged fields, which
    an object that is not iterable does not allow. *)
Definition logFields (s : gmap string value) : completion :=
  match getField s "devices" with
  | VObj o =>
      if positive_number (getField o "length")
      then Abrupt "TypeError: fitFileActivity.devices is not iterable" s
      else Normal s
  | _ => Normal s
  end.

(** Lines 210-256: what the sessions and the sports give. *)
Definition fromSessions (bs : gmap string (list (gmap string value)))
    (s : gmap string value) : completion :=
  match bucket bs "sessions" with
  | [] => Normal s
  | sessions =>
      sportProfile (bucket bs "sports")
        (mergeSessions fields sessions (sessionTotals sessions s))
  end.

(** Lines 258-308. *)
Definition finish (fitObj : gmap string value)
    (bs : gmap string (list (gmap string value))) (s : gmap string value)
  : gmap string value :=
  decodePedalBalance
    (decodePrimaryBenefit
       (deviceIds (bucket bs "devices") (workoutDetails fitObj (roundFields s)))).

(** Lines 210-316, from the arrays and the object that the loop filled. *)
Definition summarize (fitObj : gmap string value)
    (bs : gmap string (list (gmap string value))) (s : gmap string value)
  : completion :=
  match fromSessions bs s with
  | Abrupt e s' => Abrupt e s'
  | Normal s1 => logFields (finish fitObj bs s1)
  end.
End Summary.

(** *** parse *)

Section Parse.
Context {RT : Runtime} {PF : Profile} {DC : Decoder}.

(** The state of the locals when the while loop is left. The fuel is the
    number of bytes between the header and the trailer: every record moves
    the cursor forward, so the condition of the loop has failed by then
    ([decoded_exits] below). *)
Definition decoded (blob : list byte) (options : value) : LoopState :=
  let headerLength := byteAt blob 0 in
  let crcStart := dataLength blob + headerLength in
  loop (Z.to_nat (crcStart - headerLength)) blob options crcStart
    (initialState (byteAt blob 1) (byteAt blob 2 + shl32 (byteAt blob 3) 8)
       headerLength).

Definition effectiveOptions (options : value) : value :=
  if truthy options then options else defaultOptions.

Definition parse (fitFileActivity : gmap string value) (rawData : list byte)
    (options : value) : completion :=
  let options := effectiveOptions options in
  let blob := rawData in
  if (length blob <? 12)%nat then
    Abrupt "File to small to be a FIT file" fitFileActivity
  else
    let headerLength := byteAt blob 0 in
    if negb (headerLength =? 14) && negb (headerLength =? 12) then
      Abrupt "Incorrect header size" fitFileActivity
    else if negb (String.eqb (fileTypeString blob) ".FIT") then
      Abrupt "Missing '.FIT' in header" fitFileActivity
    else
      let st := decoded blob options in
      summarize (fitObj st) (buckets st) fitFileActivity.


(** The errors of lines 49, 54 and 62. *)
Definition formatErrors : list string :=
  ["File to small to be a FIT file"; "Incorrect header size";
   "Missing '.FIT' in header"].

(** The errors of lines 253 and 312. *)
Definition typeErrors : list string :=
  ["TypeError: sp.name.replace is not a function";
   "TypeError: fitFileActivity.devices is not iterable"].

(** The header passes the three checks of lines 48-63. *)
Definition headerOk (blob : list byte) : bool :=
  negb (length blob <? 12)%nat
  && ((byteAt blob 0 =? 14) || (byteAt blob 0 =? 12))
  && String.eqb (fileTypeString blob) ".FIT".

(** The arrays [sessions], [sports] and [devices] when the loop is left. *)
Definition sessionsOf (blob : list byte) (options : value) :=
  bucket (buckets (decoded blob (effectiveOptions options))) "sessions".
Definition sportsOf (blob : list byte) (options : value) :=
  bucket (buckets (decoded blob (effectiveOptions options))) "sports".
Definition devicesOf (blob : list byte) (options : value) :=
  bucket (buckets (decoded blob (effectiveOptions options))) "devices".
End Parse.

(** *** getMatchingActivity *)

Inductive Source : Type := any | garmin | wahoo.

Definition sourceName (source : Source) : string :=
  match source with
  | any => "any"
  | garmin => "garmin"
  | wahoo => "wahoo"
  end.

(** Modelled from the spec: the persistence collaborator (../database) is
    not in the sources; [search(collection, predicates)] answers with a list
    of summaries. [search k collection user dateStart] is the answer to the
    [k]-th query of one call, for the summaries of the user that start within
    a minute of [dateStart] (the window is built with dayjs); the store may
    change between two queries. *)
Class Database := {
  search : nat → string → value → value → list (gmap string value)
}.

Definition lowerUnit (c : ascii) : ascii :=
  let n := codeUnit c in
  if ((65 <=? n) && (n <=? 90) || (192 <=? n) && (n <=? 222) && negb (n =? 215))%N
  then ascii_of_N (n + 32) else c.

Definition toLowerCase (s : string) : string :=
  string_of_list_ascii (List.map lowerUnit (list_ascii_of_string s)).

Definition includes (s part : string) : bool :=
  match String.index 0 part s with
  | Some _ => true
  | None => false
  end.

Section Matching.
Context {RT : Runtime} {DB : Database}.

(** The predicate of [find], lines 392-394. *)
Definition withinTolerance (activity a : gmap string value) : bool :=
  let minTime := sub (getField activity "totalTime") (VNum 60%Q) in
  let maxTime := add (getField activity "totalTime") (VNum 60%Q) in
  ge (getField a "totalTime") minTime && le (getField a "totalTime") maxTime.

(** Lines 386-403. When [find] gives undefined the warning reads
    [result.totalTime], which throws; the catch of line 404 logs the error
    and the function ends without a value. *)
Definition selectMatching (activity : gmap string value)
    (activities : list (gmap string value)) : value :=
  match activities with
  | [] => VNull
  | _ =>
      match List.find (withinTolerance activity) activities with
      | Some result => VObj result
      | None => VUndef
      end
  end.

(** Lines 373-384; [None] when reading the device throws. *)
Definition candidates (user activity : gmap string value) (source : Source)
  : option (list (gmap string value)) :=
  let query k collection :=
    search k collection (getField user "id") (getField activity "dateStart") in
  match source with
  | any => Some (query 0%nat "garmin" ++ query 1%nat "wahoo")
  | _ =>
      match query 0%nat (sourceName source) with
      | [] =>
          match getField activity "device" with
          | VUndef | VNull => Some []
          | VStr device =>
              if includes (toLowerCase device) (sourceName source)
              then Some (query 1%nat (sourceName source))
              else Some []
          | _ => None
          end
      | activities => Some activities
      end
  end.

Definition getMatchingActivity (user activity : gmap string value)
    (source : option Source) : value :=
  match candidates user activity (default any source) with
  | Some activities => selectMatching activity activities
  | None => VUndef
  end.
End Matching.

(** ** A decoder and a runtime to run the parser on examples *)

(** A decoder that replays a script: the record at cursor [i] is the
    [(i - 12)]-th entry of the script, and takes one byte. *)
Definition replayRecord (script : list (string * gmap string value))
    (i : Z) : RecordResult :=
  match script !! Z.to_nat (i - 12) with
  | Some (kind, m) => {| nextIndex := i + 1; messageType := kind; message := Some m |}
  | None => {| nextIndex := i + 1; messageType := ""; message := None |}
  end.

Definition replay (script : list (string * gmap string value)) : Decoder :=
  {| Tables := unit; noTables := tt;
     readRecord := λ _ t i _ _, (t, replayRecord script i);
     readRecord_advances := λ _ _ i _ _,
       match script !! Z.to_nat (i - 12) as o
         return i < nextIndex (match o with
                               | Some (kind, m) =>
                                   {| nextIndex := i + 1; messageType := kind;
                                      message := Some m |}
                               | None =>
                                   {| nextIndex := i + 1; messageType := "";
                                      message := None |}
                               end)
       with
       | Some (kind, m) => Z.lt_succ_diag_r i
       | None => Z.lt_succ_diag_r i
       end |}.

(** A runtime that prints no fraction and reads no string. *)
Definition plainRuntime : Runtime :=
  {| fractionToString := λ _, "NaN"; stringToNumber := λ _, None;
     dateToString := λ _, "Invalid Date" |}.

Definition noProfile : Profile := {| product := ∅ |}.

(** A file with a 12-byte header that announces [n] bytes of records. *)
Definition fitFile (n : Z) : list byte :=
  omap (λ z, Byte.of_N (Z.to_N z))
    ([12; 16; 0; 0; n; 0; 0; 0; 46; 70; 73; 84] ++ repeat 0 (Z.to_nat n + 2)).


(** ** Vocabulary of the statements *)

(** The object with the given entries. *)
Definition object (l : list (string * value)) : gmap string value := list_to_map l.




Definition sumQ (l : list Q) : Q := fold_right Qplus 0%Q l.

Definition notNil (v : value) : bool := negb (JS.isNil v).

(** What a field of the summary holds once a list of session values has
    been merged into it: the value it held if that was truthy; otherwise the
    first truthy value of the list; otherwise the last value of the list
    that is neither null nor undefined; otherwise what it held. *)
Definition merged (current : option value) (vals : list value) : option value :=
  if JS.truthy (default VUndef current) then current
  else match List.find JS.truthy vals with
       | Some v => Some v
       | None =>
           match last (List.filter notNil vals) with
           | Some v => Some v
           | None => current
           end
       end.

(** The keys of a device message that its identity string is built from. *)
Definition identityKeys : list string :=
  ["manufacturer"; "product_name"; "device_type"; "source_type";
   "device_index"; "serial_number"].

(** A pedal balance measured from the right pedal. *)
Definition rightBalance (raw : Q) : value :=
  VObj (object [("value", VNum raw); ("right", VBool true)]).

(** ** Example data *)



(** One session with the given primary benefit code. *)
Definition benefitCode (code : Z) : list (string * gmap string value) :=
  [("session", object [("primary_benefit", VNum (inject_Z code))])].

(** One session with the given pedal balance, from the right pedal. *)
Definition balanceOf (raw : Q) : list (string * gmap string value) :=
  [("session", object [("left_right_balance", rightBalance raw)])].

(** Two device messages with the same manufacturer and serial number, and
    different product names. *)
Definition sameSerial : list (string * gmap string value) :=
  [("device_info", object [("manufacturer", VStr "garmin");
                           ("product_name", VStr "edge_530");
                           ("serial_number", VNum 123%Q)]);
   ("device_info", object [("manufacturer", VStr "garmin");
                           ("product_name", VStr "hrm pro");
                           ("serial_number", VNum 123%Q)])].

(** A timer event of the given type at the given time. *)
Definition timerEventAt (eventType : string) (ms : Z) : gmap string value :=
  object [("event", VStr "timer"); ("event_type", VStr eventType);
          ("timestamp", VDate ms)].

(** A start, a stop after 100 seconds, a start 60 seconds later. *)
Definition pausedOnce (t0 : Z) : list (string * gmap string value) :=
  [("event", timerEventAt "start" t0);
   ("event", timerEventAt "stop_all" (t0 + 100000));
   ("event", timerEventAt "start" (t0 + 160000))].

(** An activity, or a stored summary, of the given total time. *)
Definition lasting (seconds : Q) : gmap string value :=
  object [("totalTime", VNum seconds)].

(** A database whose garmin collection holds the given summaries, all of
    them inside the window, and whose wahoo collection is empty. *)
Definition garminHolds (stored : list (gmap string value)) : Database :=
  {| search := λ _ collection _ _,
       if String.eqb collection "garmin" then stored else [] |}.

(** Two sessions, the first with an intensity factor of zero. *)
Definition zeroThenPositive : list (string * gmap string value) :=
  [("session", object [("intensity_factor", VNum 0%Q)]);
   ("session", object [("intensity_factor", VNum (4 # 5)%Q)])].

(** The fields of the summary that [parse] writes: from the sessions and
    the sports, and at the end. *)
Definition sessionFields : list string :=
  ["distance"; "totalTime"; "primaryBenefit"; "intensityFactor"; "tss";
   "trainingLoad"; "aerobicTrainingEffect"; "anaerobicTrainingEffect";
   "pedalSmoothness"; "pedalTorqueEffect"; "pedalBalance"; "sportProfile"].

(** The fields rounded at lines 259-263. *)
Definition roundedFields : list string :=
  ["trainingLoad"; "pedalSmoothness"; "pedalTorqueEffect"].

Definition finishFields : list string :=
  ["trainingLoad"; "pedalSmoothness"; "pedalTorqueEffect"; "workoutName";
   "workoutNotes"; "devices"; "deviceBattery"; "primaryBenefit"; "pedalBalance"].

(** ** More vocabulary: the stream of messages *)

(** The messages that the while loop hands to its switch, in the order of
    the cursor: the same turns as [loop], keeping what [readRecord] gave. *)
Fixpoint handled {RT : Runtime} {PF : Profile} {DC : Decoder} (fuel : nat)
    (blob : list byte) (options : value) (crcStart : Z) (st : LoopState)
  : list (string * gmap string value) :=
  match fuel with
  | O => []
  | S fuel' =>
      if loopIndex st <? crcStart then
        let r := readRecord blob (tables st) (loopIndex st) options (pausedTime st) in
        match message r.2 with
        | Some m => [(messageType r.2, m)]
        | None => []
        end ++ handled fuel' blob options crcStart (step blob options st)
      else []
  end.

(** The messages of a file, as [parse] decodes them. *)
Definition recordsOf {RT : Runtime} {PF : Profile} {DC : Decoder}
    (blob : list byte) (options : value) : list (string * gmap string value) :=
  let headerLength := byteAt blob 0 in
  let crcStart := dataLength blob + headerLength in
  handled (Z.to_nat (crcStart - headerLength)) blob (effectiveOptions options)
    crcStart
    (initialState (byteAt blob 1) (byteAt blob 2 + shl32 (byteAt blob 3) 8)
       headerLength).

(** The messages of one kind, in order. *)
Definition messagesOf (kind : string) (stream : list (string * gmap string value))
  : list (gmap string value) :=
  (List.filter (λ km, String.eqb kind km.1) stream).*2.

(** The switch run over a stream of messages. *)
Definition dispatchAll {RT : Runtime} {PF : Profile} {DC : Decoder}
    (stream : list (string * gmap string value)) (st : LoopState) : LoopState :=
  fold_left (λ st km, dispatch st km.1 km.2) stream st.

(** The kinds of message that the switch collects, each with the array that
    collects it. *)
Definition collected : list (string * string) :=
  ("event", "events") :: ("device_info", "devices") :: pushOnly.

(** What is pushed for a message: a device message is pushed with its
    product name filled in. *)
Definition pushedAs {RT : Runtime} {PF : Profile} (kind : string)
    (m : gmap string value) : gmap string value :=
  if String.eqb kind "device_info" then withProductName m else m.

(** The locals of [parse] that the switch updates. *)
Definition locals {DC : Decoder} (st : LoopState)
  : gmap string value * gmap string (list (gmap string value)) * value * value :=
  (fitObj st, buckets st, lastStopTimestamp st, pausedTime st).

(** The names of a list of sport messages that are non-empty strings. *)
Definition sportNames (sports : list (gmap string value)) : list string :=
  omap (λ sp, match JS.getField sp "name" with
              | VStr name => if String.eqb name "" then None else Some name
              | _ => None
              end) sports.

(** A sport name on which [replace] can be called, or that is skipped. *)
Definition nameIsText (sp : gmap string value) : bool :=
  match JS.getField sp "name" with
  | VStr _ => true
  | v => negb (JS.truthy v)
  end.

(** ** More vocabulary: the battery statuses *)

(** Line 284: the listed devices that hold a truthy battery status. *)
Definition batteryDevices {RT : Runtime} (devices : list (gmap string value))
  : list (gmap string value) :=
  List.filter (λ d, JS.truthy (JS.getField d "battery_status"))
    (validDevices devices).

(** The identifier of an entry of [deviceBattery]. *)
Definition entryId (entry : value) : value := JS.getProp entry "id".

(** ** More vocabulary: how a parse ends *)

(** A value of [devices] that line 312 can spread into the logged fields,
    or that line 311 leaves out: anything but an object (not an array) with
    a positive length. *)
Definition spreadable {RT : Runtime} (devices : value) : bool :=
  match devices with
  | VObj o => negb (JS.positive_number (JS.getField o "length"))
  | _ => true
  end.

(** ** More vocabulary: the queries of the matcher *)

(** The answer to the [k]-th query of a call of the matcher on a
    collection. *)
Definition queried {DB : Database} (user activity : gmap string value)
    (k : nat) (collection : string) : list (gmap string value) :=
  search k collection (JS.getField user "id") (JS.getField activity "dateStart").

(** The test of line 378: the device of the activity is a string that
    contains the name of the source once its letters are in lower case. *)
Definition deviceNames (activity : gmap string value) (source : Source) : bool :=
  match JS.getField activity "device" with
  | VStr device => includes (toLowerCase device) (sourceName source)
  | _ => false
  end.

(** A database whose garmin collection is empty at the first query and
    holds the given summaries from the second query on. *)
Definition garminHoldsLater (stored : list (gmap string value)) : Database :=
  {| search := λ k collection _ _,
       if String.eqb collection "garmin" && negb (k =? 0)%nat then stored else [] |}.

(** ** getProcessedActivities *)

(** Modelled from the spec: [database.search(collection, where)] of the
    persistence collaborator (../database), which is not in the sources, for
    a list of clauses [[field, operator, value]]; and the ISO text of a date,
    which the runtime refuses for a date that is not valid. A query that
    fails is left out. *)
Class Collections := {
  searchWhere : string → list (list value) → list (gmap string value);
  isoString : Z → option string
}.

Section Processed.
Context {CL : Collections}.

(** [i.toISOString()], a method of dates only; [None] when the call
    throws. *)
Definition toISOString (i : value) : option string :=
  match i with
  | VDate ms => isoString ms
  | _ => None
  end.

(** [w.map((i) => i.toISOString()).join(" ")]. *)
Definition clauseText (w : list value) : option string :=
  option_map (String.concat " ") (mapM toISOString w).

(** Line 343. *)
Definition logWhere (clauses : list (list value)) : option string :=
  match clauses with
  | [] => Some "No date filter"
  | _ => option_map (String.concat ", ") (mapM clauseText clauses)
  end.

(** Lines 329-337. *)
Definition whereOf (user : gmap string value) (options : value) : list (list value) :=
  [[VStr "userId"; VStr "=="; JS.getField user "id"]]
  ++ (if JS.truthy (JS.getProp options "dateFrom")
      then [[VStr "dateStart"; VStr ">="; JS.getProp options "dateFrom"]] else [])
  ++ (if JS.truthy (JS.getProp options "dateTo")
      then [[VStr "dateStart"; VStr "<="; JS.getProp options "dateTo"]] else []).

(** Lines 327-350: what the promise resolves to, [None] for the undefined
    that follows the catch of line 347. Reading a property of options that
    are null or undefined throws as well. *)
Definition getProcessedActivities (user : gmap string value) (source : string)
    (options : value) : option (list (gmap string value)) :=
  if JS.isNil options then None
  else
    let clauses := whereOf user options in
    let result := searchWhere source clauses in
    match logWhere (tail clauses) with
    | Some _ => Some result
    | None => None
    end.
End Processed.

(** A store with no summary, and dates printed as their time value. *)
Definition emptyCollections : Collections :=
  {| searchWhere := λ _ _, []; isoString := λ ms, Some (pretty ms) |}.

(** ** GearWear.updateBatteryTracking (src/gearwear/index.ts) *)

(** The caller of [getMatchingActivity]: the battery statuses of the matched
    summaries are folded into the tracker of the user. Identifiers and
    statuses are strings, as [getDeviceString] and the FIT profile give
    them, so that [==] and [!=] compare strings. *)
Module GearWear.

(** An element of [tracker.devices]; [batteryId] and [batteryStatus] are
    its [id] and [status], named apart from the identity function. *)
Record trackedDevice : Type := {
  batteryId : string;
  batteryStatus : string;
  dateUpdated : value
}.

(** An element of [matching.deviceBattery]: identifier and status. *)
Definition deviceBattery : Type := string * string.

(** [["low", "critical"].includes(status)], line 854. *)
Definition isLow (status : string) : bool :=
  String.eqb status "low" || String.eqb status "critical".

(** Lines 845-846: the first device with the identifier is updated in
    place. *)
Fixpoint setExisting (i status : string) (date : value)
    (devices : list trackedDevice) : list trackedDevice :=
  match devices with
  | [] => []
  | d :: rest =>
      if String.eqb (batteryId d) i
      then {| batteryId := batteryId d; batteryStatus := status;
              dateUpdated := date |} :: rest
      else d :: setExisting i status date rest
  end.

(** Lines 838-856, for one element of [matching.deviceBattery]: the state
    is [tracker.devices] and [lowBatteryDevices]. *)
Definition trackEntry (date : value)
    (st : list trackedDevice * list deviceBattery) (e : deviceBattery)
  : list trackedDevice * list deviceBattery :=
  let existing := List.find (λ d, String.eqb (batteryId d) e.1) st.1 in
  let devices :=
    match existing with
    | Some _ => setExisting e.1 e.2 date st.1
    | None =>
        st.1 ++ [{| batteryId := e.1; batteryStatus := e.2; dateUpdated := date |}]
    end in
  let changedToLow :=
    match existing with
    | Some d => negb (String.eqb (batteryStatus d) e.2)
    | None => true
    end in
  (devices, if isLow e.2 && changedToLow then st.2 ++ [e] else st.2).

(** Lines 835-858, for one matched activity. *)
Definition trackEntries (date : value)
    (st : list trackedDevice * list deviceBattery) (entries : list deviceBattery)
  : list trackedDevice * list deviceBattery :=
  fold_left (trackEntry date) entries st.

(** Lines 823-862, over the activities that have a matching summary with
    battery statuses, each with its [dateUpdated]. *)
Definition trackActivities (st : list trackedDevice * list deviceBattery)
    (matched : list (value * list deviceBattery))
  : list trackedDevice * list deviceBattery :=
  fold_left (λ st m, trackEntries m.1 st m.2) matched st.

(** [_.sortBy(tracker.devices, "id")], line 873: the stable sort by
    identifier, strings compared by code units. *)
Fixpoint insertById (d : trackedDevice) (sorted : list trackedDevice)
  : list trackedDevice :=
  match sorted with
  | [] => [d]
  | x :: rest =>
      if String.leb (batteryId d) (batteryId x) then d :: x :: rest
      else x :: insertById d rest
  end.

Definition sortById (devices : list trackedDevice) : list trackedDevice :=
  foldr insertById [] devices.

(** Lines 823-873: the devices that are saved. *)
Definition updatedDevices (devices : list trackedDevice)
    (matched : list (value * list deviceBattery)) : list trackedDevice :=
  sortById (trackActivities (devices, []) matched).1.
End GearWear.

(** ** More vocabulary: the tracker *)

(** The identifiers of the tracked devices. *)
Definition trackedIds (devices : list GearWear.trackedDevice) : list string :=
  List.map GearWear.batteryId devices.

(** The battery statuses of the matched activities in the order in which
    the loops read them, each with the date of its activity. *)
Definition datedEntries (matched : list (value * list GearWear.deviceBattery))
  : list (value * GearWear.deviceBattery) :=
  concat (List.map (λ m, List.map (pair m.1) m.2) matched).

(** A tracked device as an entry gives it. *)
Definition trackedAs (date : value) (e : GearWear.deviceBattery)
  : GearWear.trackedDevice :=
  {| GearWear.batteryId := e.1; GearWear.batteryStatus := e.2;
     GearWear.dateUpdated := date |}.

(** Two devices in the order of their identifiers. *)
Definition idOrder (a b : GearWear.trackedDevice) : Prop :=
  String.leb (GearWear.batteryId a) (GearWear.batteryId b) = true.

(** ** GDPR.generateArchive: the data of the archive *)

Module GDPR.

(** Modelled from the spec: what the persistence collaborator (../database),
    which is not in the sources, answers to the queries of lines 526-534. *)
Record Answers : Type := {
  activities : value;
  garminActivities : value;
  wahooActivities : value;
  recipeStats : value;
  sharedRecipes : value;
  athleteRecords : value;
  calendars : value;
  gearwearConfig : value;
  batteryTracker : value;
  notifications : value;
  subscriptions : value;
  userData : value
}.

(** Lines 525-534. *)
Definition collect (a : Answers) : gmap string value :=
  <["User" := userData a]>
  (<["Subscription" := subscriptions a]>
  (<["Notifications" := notifications a]>
  (<["GearWear" := VObj (<["BatteryTracker" := batteryTracker a]>
                        (<["Config" := gearwearConfig a]> ∅))]>
  (<["Calendars" := calendars a]>
  (<["AthleteRecords" := athleteRecords a]>
  (<["Automations" := VObj (<["Shared" := sharedRecipes a]>
                           (<["Stats" := recipeStats a]> ∅))]>
  (<["FitActivities" := VObj (<["Wahoo" := wahooActivities a]>
                             (<["Garmin" := garminActivities a]> ∅))]>
  (<["Activities" := activities a]> ∅)))))))).

(** Lines 539-547, for one of garmin, wahoo and spotify: the tokens of a
    truthy profile are deleted, which changes nothing unless the profile is
    an object. *)
Definition removeTokens (u : gmap string value) (k : string) : gmap string value :=
  match u !! k with
  | Some (VObj o) => <[k := VObj (delete "tokens" o)]> u
  | _ => u
  end.

(** Lines 537-547; [None] when the user record is null or undefined, and
    the first delete throws. *)
Definition removeSensitive (user : value) : option value :=
  match user with
  | VUndef | VNull => None
  | VObj u =>
      Some (VObj (removeTokens
                    (removeTokens
                       (removeTokens (delete "urlToken" (delete "stravaTokens" u))
                          "garmin")
                       "wahoo")
                    "spotify"))
  | _ => Some user
  end.

(** [Object.values(data).length]. *)
Definition ownValues (data : value) : nat :=
  match data with
  | VArr l => length l
  | VObj o => size o
  | VStr s => String.length s
  | _ => 0
  end.

(** Lines 552-558: an entry is deleted when it is truthy and has no value
    of its own. *)
Definition kept (data : value) : bool :=
  negb (JS.truthy data) || negb (ownValues data =? 0)%nat.

Definition cleanup (jsonData : gmap string value) : gmap string value :=
  filter (λ kv, kept kv.2 = true) jsonData.

(** Lines 525-558: the data that is written to the archive; [None] when
    removing the sensitive data throws. *)
Definition archiveData (a : Answers) : option (gmap string value) :=
  match removeSensitive (userData a) with
  | Some user => Some (cleanup (<["User" := user]> (collect a)))
  | None => None
  end.
End GDPR.

(** ** More vocabulary: the archive *)

(** The profiles of the user record that hold tokens. *)
Definition tokenProfiles : list string := ["garmin"; "wahoo"; "spotify"].

(** The entries of the archive that are made of two answers. *)
Definition compositeEntries : list string :=
  ["FitActivities"; "Automations"; "GearWear"].

(** * Properties *)

(** Splits [k ∉ [a; b; ...]] into [k ≠ a], [k ≠ b], ... *)
Ltac split_notin H :=
  repeat (apply not_elem_of_cons in H as [? H]).

(** Proves [k ∉ [a; b; ...]] from such hypotheses. *)
Ltac solve_notin :=
  repeat (apply not_elem_of_cons; split; [done |]); apply not_elem_of_nil.

(** Proves [k ∈ [a; b; ...]] for a [k] of the list. *)
Ltac solve_in :=
  repeat first [apply list_elem_of_here | apply list_elem_of_further].

Ltac frame_step :=
  repeat first
    [ rewrite lookup_insert_ne by done
    | rewrite lookup_delete_ne by done
    | case_match ];
  try done.

(** ** Numbers and strings of the runtime *)

Section JSFacts.
Import JS.
Context {RT : Runtime}.

Lemma add_numbers (a b : Q) : add (VNum a) (VNum b) = VNum (Qred (a + b)).
Proof. reflexivity. Qed.

Lemma Qred_inject_Z (z : Z) : Qred (inject_Z z) = inject_Z z.
Proof.
  unfold Qred, inject_Z.
  pose proof (Z.ggcd_gcd z 1) as Hg.
  pose proof (Z.ggcd_correct_divisors z 1) as Hd.
  destruct (Z.ggcd z 1) as [g [a b]]. simpl in *.
  rewrite Z.gcd_1_r in Hg. subst g. destruct Hd as [-> Hb].
  rewrite !Z.mul_1_l in *. by rewrite <- Hb.
Qed.

Lemma isInteger_inject_Z (z : Z) : isInteger (inject_Z z) = true.
Proof. unfold isInteger. by rewrite Qred_inject_Z. Qed.

Lemma numberToString_integer (z : Z) :
  Z.abs z < 10 ^ 21 → numberToString (inject_Z z) = pretty z.
Proof.
  intros Hz. unfold numberToString.
  rewrite isInteger_inject_Z, Qred_inject_Z. simpl.
  destruct (Z.abs z <? 10 ^ 21) eqn:E; [done | apply Z.ltb_ge in E; lia].
Qed.


Lemma tenth_close (q a : Q) :
  (a <= q * 10 + (1 # 2))%Q → (q * 10 + (1 # 2) < a + 1)%Q →
  (Qabs (a / 10 - q) <= 1 # 20)%Q.
Proof.
  intros Hle Hlt.
  assert (a / 10 == a * (1 # 10))%Q as -> by field.
  apply Qabs_case; intros _; lra.
Qed.

(** [toFixed(1)] gives a multiple of one tenth within one twentieth. *)
Lemma roundTenth_spec (q : Q) :
  (∃ n : Z, roundTenth q == inject_Z n / 10)%Q
  ∧ (Qabs (roundTenth q - q) <= 1 # 20)%Q.
Proof.
  unfold roundTenth. destruct (Qle_bool 0 q) eqn:E.
  - split; [by eexists |].
    pose proof (Qfloor_le (q * 10 + (1 # 2))) as Hle.
    pose proof (Qlt_floor (q * 10 + (1 # 2))) as Hlt.
    rewrite inject_Z_plus in Hlt. by apply tenth_close.
  - split.
    + exists (- Qfloor (- q * 10 + (1 # 2))). rewrite inject_Z_opp. field.
    + pose proof (Qfloor_le (- q * 10 + (1 # 2))) as Hle.
      pose proof (Qlt_floor (- q * 10 + (1 # 2))) as Hlt.
      rewrite inject_Z_plus in Hlt.
      pose proof (tenth_close (- q) _ Hle Hlt) as Hc.
      rewrite <- Qabs_opp.
      assert (- (- (inject_Z (Qfloor (- q * 10 + (1 # 2))) / 10) - q)
              == inject_Z (Qfloor (- q * 10 + (1 # 2))) / 10 - - q)%Q as ->
        by field.
      exact Hc.
Qed.
End JSFacts.

(** ** The loop ends, and the header checks *)

Section ParseFacts.
Import JS.
Context {RT : Runtime} {PF : Profile} {DC : Decoder}.

Lemma dispatch_loopIndex st kind m :
  loopIndex (dispatch st kind m) = loopIndex st.
Proof.
  unfold dispatch.
  repeat (case_match; simpl; try done).
Qed.

Lemma step_advances blob options st :
  loopIndex st < loopIndex (step blob options st).
Proof.
  unfold step.
  pose proof (readRecord_advances blob (tables st) (loopIndex st) options
                (pausedTime st)) as Hadv.
  destruct (message _); [rewrite dispatch_loopIndex |]; done.
Qed.

(** With one unit of fuel for each byte left before the trailer, the loop
    stops because its condition fails, as the while loop does. *)
Lemma loop_exits fuel blob options crcStart st :
  crcStart - loopIndex st ≤ Z.of_nat fuel →
  crcStart ≤ loopIndex (loop fuel blob options crcStart st).
Proof.
  revert st. induction fuel as [| fuel IH]; intros st Hfuel; simpl.
  - lia.
  - destruct (loopIndex st <? crcStart) eqn:E.
    + apply IH. pose proof (step_advances blob options st). lia.
    + by apply Z.ltb_ge in E.
Qed.

Lemma decoded_exits blob options :
  dataLength blob + byteAt blob 0 ≤ loopIndex (decoded blob options).
Proof. unfold decoded. apply loop_exits. simpl. lia. Qed.

Lemma fileType_marker blob :
  fileTypeString blob = ".FIT" ↔ take 4 (drop 8 blob) = [x2e; x46; x49; x54].
Proof.
  unfold fileTypeString. split.
  - intros Heq. apply (f_equal list_ascii_of_string) in Heq.
    rewrite list_ascii_of_string_of_list_ascii in Heq.
    apply (f_equal (List.map byte_of_ascii)) in Heq.
    rewrite List.map_map in Heq.
    rewrite (List.map_ext _ id) in Heq by apply byte_of_ascii_of_byte.
    by rewrite List.map_id in Heq.
  - by intros ->.
Qed.

Lemma parse_headerOk s blob options :
  headerOk blob = true →
  parse s blob options =
    summarize (fitObj (decoded blob (effectiveOptions options)))
      (buckets (decoded blob (effectiveOptions options))) s.
Proof.
  unfold headerOk, parse. intros Hok.
  apply andb_prop in Hok as [Hok Hmark]. apply andb_prop in Hok as [Hlen Hhl].
  apply negb_true_iff in Hlen. rewrite Hlen, Hmark. simpl.
  apply orb_prop in Hhl as [-> | Hhl]; [done |].
  rewrite Hhl. by rewrite andb_false_r.
Qed.

Lemma parse_headerBad s blob options :
  headerOk blob = false →
  ∃ e, e ∈ formatErrors ∧ parse s blob options = Abrupt e s.
Proof.
  unfold headerOk, parse, formatErrors. intros Hbad.
  destruct (length blob <? 12)%nat; [eexists; split; [| done]; solve_in |].
  destruct (byteAt blob 0 =? 14) eqn:E14, (byteAt blob 0 =? 12) eqn:E12;
    simpl in *.
  all: try (eexists; split; [| done]; solve_in).
  all: rewrite Hbad; simpl; eexists; split; [| done]; solve_in.
Qed.

(** C1. A buffer under 12 bytes, or whose first byte is neither 12 nor 14,
    or whose bytes 8 to 11 are not the marker [.FIT], makes [parse] throw
    one of its three format errors, and the summary handed in by the
    caller is left exactly as it was. *)
Theorem parse_format_error (s : gmap string value) (blob : list byte)
    (options : value) :
  (length blob < 12)%nat
  ∨ (byteAt blob 0 ≠ 12 ∧ byteAt blob 0 ≠ 14)
  ∨ take 4 (drop 8 blob) ≠ [x2e; x46; x49; x54] →
  ∃ e, e ∈ formatErrors ∧ parse s blob options = Abrupt e s.
Proof.
  intros Hbad. apply parse_headerBad. unfold headerOk.
  destruct Hbad as [Hlen | [[H12 H14] | Hmark]].
  - apply Nat.ltb_lt in Hlen. by rewrite Hlen.
  - apply Z.eqb_neq in H12, H14. rewrite H12, H14. simpl.
    by rewrite andb_false_r.
  - rewrite <- fileType_marker in Hmark.
    apply String.eqb_neq in Hmark. rewrite Hmark. by rewrite andb_false_r.
Qed.
End ParseFacts.

(** ** Which fields each stage writes *)

Section SummaryFacts.
Import JS.
Context {RT : Runtime}.

Lemma sessionTotals_frame sessions s k :
  k ≠ "distance" → k ≠ "totalTime" → sessionTotals sessions s !! k = s !! k.
Proof. intros. unfold sessionTotals. by frame_step. Qed.

Lemma mergeField_frame s field v k :
  k ≠ field → mergeField s field v !! k = s !! k.
Proof. intros. unfold mergeField. by frame_step. Qed.

Lemma mergeSession_frame table s session k :
  k ∉ table.*1 → mergeSession table s session !! k = s !! k.
Proof.
  unfold mergeSession. revert s.
  induction table as [| [field key] table IH]; intros s Hk; simpl; [done |].
  rewrite fmap_cons in Hk. apply not_elem_of_cons in Hk as [Hne Hk].
  rewrite IH by done. by apply mergeField_frame.
Qed.

Lemma mergeSessions_frame table sessions s k :
  k ∉ table.*1 → mergeSessions table sessions s !! k = s !! k.
Proof.
  intros Hk. unfold mergeSessions. revert s.
  induction sessions as [| session sessions IH]; intros s; simpl; [done |].
  rewrite IH. by apply mergeSession_frame.
Qed.

Lemma sportProfile_frame sports s k :
  k ≠ "sportProfile" → summaryOf (sportProfile sports s) !! k = s !! k.
Proof.
  intros Hk. revert s.
  induction sports as [| sp sports IH]; intros s; simpl; [done |].
  repeat case_match; simpl; try done; try apply IH.
  rewrite IH. by rewrite lookup_insert_ne.
Qed.

Lemma roundField_frame s field k :
  k ≠ field → roundField s field !! k = s !! k.
Proof. intros. unfold roundField. by frame_step. Qed.

Lemma roundFields_frame s k :
  k ∉ ["trainingLoad"; "pedalSmoothness"; "pedalTorqueEffect"] →
  roundFields s !! k = s !! k.
Proof.
  intros Hk. split_notin Hk. unfold roundFields. simpl.
  by rewrite !roundField_frame.
Qed.

Lemma workoutDetails_frame fitObj s k :
  k ≠ "workoutName" → k ≠ "workoutNotes" →
  workoutDetails fitObj s !! k = s !! k.
Proof. intros. unfold workoutDetails. by frame_step. Qed.

Lemma deviceIds_frame devices s k :
  k ≠ "devices" → k ≠ "deviceBattery" → deviceIds devices s !! k = s !! k.
Proof. intros. unfold deviceIds. by frame_step. Qed.

Lemma decodePrimaryBenefit_frame s k :
  k ≠ "primaryBenefit" → decodePrimaryBenefit s !! k = s !! k.
Proof. intros. unfold decodePrimaryBenefit. by frame_step. Qed.

Lemma decodePedalBalance_frame s k :
  k ≠ "pedalBalance" → decodePedalBalance s !! k = s !! k.
Proof. intros. unfold decodePedalBalance. by frame_step. Qed.

Lemma logFields_summary s : summaryOf (logFields s) = s.
Proof. unfold logFields. by repeat case_match. Qed.

Lemma finish_frame fitObj bs s k :
  k ∉ finishFields → finish fitObj bs s !! k = s !! k.
Proof.
  intros Hk. unfold finishFields in Hk. unfold finish. split_notin Hk.
  rewrite decodePedalBalance_frame, decodePrimaryBenefit_frame,
    deviceIds_frame, workoutDetails_frame by done.
  apply roundFields_frame. solve_notin.
Qed.

Lemma fromSessions_frame bs s k :
  k ∉ sessionFields → summaryOf (fromSessions bs s) !! k = s !! k.
Proof.
  intros Hk. unfold fromSessions.
  destruct (bucket bs "sessions") as [| session sessions]; [done |].
  unfold sessionFields in Hk. split_notin Hk.
  rewrite sportProfile_frame, mergeSessions_frame by (done || solve_notin).
  by apply sessionTotals_frame.
Qed.

(** What [summarize] leaves in the summary, whether it returns or throws. *)
Lemma summarize_summary fitObj bs s :
  summaryOf (summarize fitObj bs s) =
    match fromSessions bs s with
    | Normal s1 => finish fitObj bs s1
    | Abrupt _ s' => s'
    end.
Proof.
  unfold summarize. destruct (fromSessions bs s); [| done].
  apply logFields_summary.
Qed.

Lemma summarize_normal fitObj bs s s' :
  summarize fitObj bs s = Normal s' →
  ∃ s1, fromSessions bs s = Normal s1 ∧ s' = finish fitObj bs s1.
Proof.
  unfold summarize. destruct (fromSessions bs s) as [s1 |]; [| done].
  intros Hlog. exists s1. split; [done |].
  pose proof (logFields_summary (finish fitObj bs s1)) as Hs.
  by rewrite Hlog in Hs.
Qed.

Lemma summarize_frame fitObj bs s k :
  k ∉ sessionFields → k ∉ finishFields →
  summaryOf (summarize fitObj bs s) !! k = s !! k.
Proof.
  intros Hs Hf. rewrite summarize_summary.
  pose proof (fromSessions_frame bs s k Hs) as Hfrom.
  destruct (fromSessions bs s); simpl in Hfrom; [| done].
  by rewrite finish_frame.
Qed.
End SummaryFacts.

(** ** Distance and total time (C2) *)

Section Totals.
Import JS.
Context {RT : Runtime}.


Lemma roundHalfUp_proper (q q' : Q) : (q == q')%Q → roundHalfUp q = roundHalfUp q'.
Proof. intros Heq. unfold roundHalfUp. apply Qfloor_comp. by rewrite Heq. Qed.





Lemma fromSessions_totals bs s k :
  k = "distance" ∨ k = "totalTime" →
  summaryOf (fromSessions bs s) !! k =
    match bucket bs "sessions" with
    | [] => s !! k
    | sessions => sessionTotals sessions s !! k
    end.
Proof.
  intros Hk. unfold fromSessions.
  destruct (bucket bs "sessions") as [| session sessions]; [done |].
  rewrite sportProfile_frame, mergeSessions_frame; [done | |];
    destruct Hk as [-> | ->]; done || solve_notin.
Qed.

Lemma summarize_totals fitObj bs s k :
  k = "distance" ∨ k = "totalTime" →
  summaryOf (summarize fitObj bs s) !! k =
    match bucket bs "sessions" with
    | [] => s !! k
    | sessions => sessionTotals sessions s !! k
    end.
Proof.
  intros Hk. rewrite <- fromSessions_totals by done.
  rewrite summarize_summary. destruct (fromSessions bs s); simpl; [| done].
  apply finish_frame. unfold finishFields. destruct Hk as [-> | ->]; solve_notin.
Qed.
End Totals.

Section ParseTotals.
Import JS.
Context {RT : Runtime} {PF : Profile} {DC : Decoder}.

Lemma parse_summary s blob options :
  headerOk blob = true →
  summaryOf (parse s blob options) =
    summaryOf (summarize (fitObj (decoded blob (effectiveOptions options)))
                 (buckets (decoded blob (effectiveOptions options))) s).
Proof. intros Hok. by rewrite parse_headerOk. Qed.

Lemma parse_totals s blob options k :
  headerOk blob = true → k = "distance" ∨ k = "totalTime" →
  summaryOf (parse s blob options) !! k =
    match sessionsOf blob options with
    | [] => s !! k
    | sessions => sessionTotals sessions s !! k
    end.
Proof. intros Hok Hk. rewrite parse_summary by done. by apply summarize_totals. Qed.

End ParseTotals.



Lemma parse_format_error_witness :
  (length ([] : list byte) < 12)%nat
  ∧ ∃ e, e ∈ formatErrors
         ∧ parse (RT := plainRuntime) (PF := noProfile) (DC := replay [])
             ∅ [] VUndef = Abrupt e ∅.
Proof.
  split; [simpl; lia |].
  apply (parse_format_error (RT := plainRuntime) (PF := noProfile)
           (DC := replay []) ∅ [] VUndef).
  left. simpl. lia.
Defined.

(** ** The merge of the session values (C6) *)

Section Merge.
Import JS.
Context {RT : Runtime}.

Lemma mergeField_lookup s field v :
  mergeField s field v !! field =
    if negb (truthy (default VUndef (s !! field))) && notNil v
    then Some v else s !! field.
Proof.
  unfold mergeField, getField, notNil.
  case_match; [by rewrite lookup_insert_eq | done].
Qed.

Lemma mergeSession_lookup table s session field key :
  NoDup table.*1 → (field, key) ∈ table →
  mergeSession table s session !! field =
    mergeField s field (sessionValue session key) !! field.
Proof.
  unfold mergeSession. revert s.
  induction table as [| [f k] table IH]; intros s Hnd Hin; [by inversion Hin |].
  rewrite fmap_cons in Hnd. apply NoDup_cons in Hnd as [Hf Hnd]. simpl in *.
  apply elem_of_cons in Hin as [[= <- <-] | Hin].
  - exact (mergeSession_frame table _ session field Hf).
  - rewrite IH by done.
    assert (field ≠ f) as Hne.
    { intros ->. apply Hf. apply list_elem_of_fmap. by exists (f, key). }
    rewrite !mergeField_lookup. by rewrite mergeField_frame.
Qed.

Lemma merged_nil current : merged current [] = current.
Proof. unfold merged. simpl. by case_match. Qed.

Lemma truthy_notNil v : truthy v = true → notNil v = true.
Proof. by destruct v. Qed.

Lemma merged_cons current v vals :
  merged current (v :: vals) =
    merged (if negb (truthy (default VUndef current)) && notNil v
            then Some v else current) vals.
Proof.
  unfold merged. simpl.
  destruct (truthy (default VUndef current)) eqn:Ecur; simpl.
  - by rewrite Ecur.
  - destruct (notNil v) eqn:Enil; simpl.
    + destruct (truthy v) eqn:Ev; [done |].
      rewrite last_cons. by repeat case_match.
    + rewrite Ecur. destruct (truthy v) eqn:Ev; [| done].
      apply truthy_notNil in Ev. congruence.
Qed.

Lemma mergeSessions_lookup table sessions s field key :
  NoDup table.*1 → (field, key) ∈ table →
  mergeSessions table sessions s !! field =
    merged (s !! field) (List.map (λ session, sessionValue session key) sessions).
Proof.
  intros Hnd Hin. unfold mergeSessions. revert s.
  induction sessions as [| session sessions IH]; intros s; simpl.
  - by rewrite merged_nil.
  - rewrite IH, merged_cons.
    by rewrite (mergeSession_lookup table s session field key), mergeField_lookup.
Qed.

Lemma fields_NoDup : NoDup fields.*1.
Proof. apply (bool_decide_unpack _). by vm_compute. Qed.

(** The sum of lodash over numbers. *)
Lemma baseSum_VNum_from (qs : list Q) (a : Q) :
  ∃ q, fold_left (λ result current,
                    match current with
                    | VUndef => result
                    | _ => match result with
                           | VUndef => current
                           | _ => add result current
                           end
                    end) (List.map VNum qs) (VNum a) = VNum q
       ∧ (q == a + sumQ qs)%Q.
Proof.
  revert a. induction qs as [| x qs IH]; intros a; simpl.
  - exists a. split; [done | ring].
  - rewrite add_numbers. destruct (IH (Qred (a + x))) as (q' & -> & Hq').
    exists q'. split; [done |]. rewrite Hq', Qred_correct.
    unfold sumQ. cbn [fold_right]. ring.
Qed.

(** The mean of lodash over a list of numbers that is not empty. *)
Lemma mean_numbers (qs : list Q) :
  qs ≠ [] →
  ∃ m, mean (List.map VNum qs) = VNum m
       ∧ (m == sumQ qs / inject_Z (Z.of_nat (length qs)))%Q.
Proof.
  destruct qs as [| x qs]; [done |]. intros _. unfold mean, baseSum.
  cbn [List.map fold_left].
  destruct (baseSum_VNum_from qs x) as (q & -> & Hq).
  eexists. split; [done |]. rewrite Qred_correct, Hq.
  cbn [length]. rewrite List.length_map.
  rewrite <- positive_nat_Z, Nat2Pos.id by done.
  unfold sumQ. cbn [fold_right]. reflexivity.
Qed.

Lemma mergeSessions_fields (s : gmap string value)
    (sessions : list (gmap string value)) :
  Forall (λ field : string * fieldKey,
            mergeSessions fields sessions s !! field.1 =
              merged (s !! field.1)
                (List.map (λ session, sessionValue session field.2) sessions)
            ∧ ∀ later,
                truthy (getField (mergeSessions fields sessions s) field.1) = true →
                mergeSessions fields (sessions ++ later) s !! field.1 =
                  mergeSessions fields sessions s !! field.1)
    fields
  ∧ (∀ session keys qs,
       pickedValues session keys = List.map VNum qs → qs ≠ [] →
       ∃ m, sessionValue session (Several keys) = VNum m
            ∧ (m == sumQ qs / inject_Z (Z.of_nat (length qs)))%Q)
  ∧ (∀ session keys,
       pickedValues session keys = [] →
       sessionValue session (Several keys) = VUndef).
Proof.
  split; [| split].
  - apply Forall_forall. intros [field key] Hin. simpl. split.
    + by apply mergeSessions_lookup; [apply fields_NoDup |].
    + intros later Htruthy.
      unfold mergeSessions at 1. rewrite fold_left_app.
      fold (mergeSessions fields sessions s).
      fold (mergeSessions fields later (mergeSessions fields sessions s)).
      rewrite (mergeSessions_lookup fields later _ field key)
        by (done || apply fields_NoDup).
      unfold merged, getField in *. by rewrite Htruthy.
  - intros session keys qs Hpick Hne. simpl. rewrite Hpick.
    destruct (mean_numbers qs Hne) as (m & Hm & Heq).
    exists m. split; [| done]. by destruct qs.
  - intros session keys Hpick. simpl. by rewrite Hpick.
Qed.

Lemma fromSessions_field bs s field key :
  (field, key) ∈ fields →
  summaryOf (fromSessions bs s) !! field =
    merged (s !! field)
      (List.map (λ session, sessionValue session key) (bucket bs "sessions")).
Proof.
  intros Hin. unfold fromSessions.
  destruct (bucket bs "sessions") as [| session sessions] eqn:Eb;
    [by rewrite merged_nil |].
  assert (field ≠ "sportProfile" ∧ field ≠ "distance" ∧ field ≠ "totalTime")
    as (Hsp & Hd & Ht).
  { unfold fields in Hin.
    repeat (apply elem_of_cons in Hin as [[= -> ->] | Hin]; [done |]).
    by apply elem_of_nil in Hin. }
  rewrite sportProfile_frame by done.
  rewrite (mergeSessions_lookup fields _ _ field key) by (done || apply fields_NoDup).
  by rewrite sessionTotals_frame.
Qed.

Lemma roundField_lookup s field :
  roundField s field !! field =
    if truthy (default VUndef (s !! field))
    then Some (mathRound (default VUndef (s !! field)))
    else s !! field.
Proof.
  unfold roundField, getField. case_match; [by rewrite lookup_insert_eq | done].
Qed.

Lemma finish_rounded fitObj bs s field :
  field ∈ roundedFields →
  finish fitObj bs s !! field =
    if truthy (default VUndef (s !! field))
    then Some (mathRound (default VUndef (s !! field)))
    else s !! field.
Proof.
  intros Hin. unfold finish, roundedFields in *.
  repeat (apply elem_of_cons in Hin as [-> | Hin]);
    [| | | by apply elem_of_nil in Hin].
  all: rewrite decodePedalBalance_frame, decodePrimaryBenefit_frame,
         deviceIds_frame, workoutDetails_frame by done.
  all: unfold roundFields; simpl.
  - rewrite !roundField_frame by done. apply roundField_lookup.
  - rewrite roundField_frame by done. rewrite roundField_lookup.
    by rewrite roundField_frame.
  - rewrite roundField_lookup. by rewrite !roundField_frame.
Qed.

Lemma summarize_early fitObj bs s k :
  k ∉ finishFields →
  summaryOf (summarize fitObj bs s) !! k = summaryOf (fromSessions bs s) !! k.
Proof.
  intros Hk. rewrite summarize_summary.
  destruct (fromSessions bs s); simpl; [by apply finish_frame | done].
Qed.
End Merge.

Section ParseMerge.
Import JS.
Context {RT : Runtime} {PF : Profile} {DC : Decoder}.

(** C6, as the code has it. After the merge loop of lines 229-248, each of
    the nine fields holds: the value the caller gave if that was truthy;
    otherwise the first truthy value that the sessions give for it, in
    order; otherwise the last value the sessions give that is neither null
    nor undefined (a zero, a NaN, an empty string); otherwise what it held.
    A truthy value is never overwritten by a later session. For the two
    fields fed by several keys, the value a session gives is the mean of the
    numbers it holds under those keys, and nothing when it holds none. At
    the end of a parse the four fields that no later line touches hold that
    value, and the three rounded fields hold it rounded when it is truthy. *)
Theorem merged_fields (s : gmap string value)
    (sessions : list (gmap string value)) (blob : list byte) (options : value) :
  Forall (λ field : string * fieldKey,
            mergeSessions fields sessions s !! field.1 =
              merged (s !! field.1)
                (List.map (λ session, sessionValue session field.2) sessions)
            ∧ ∀ later,
                truthy (getField (mergeSessions fields sessions s) field.1) = true →
                mergeSessions fields (sessions ++ later) s !! field.1 =
                  mergeSessions fields sessions s !! field.1)
    fields
  ∧ (∀ session keys qs,
       pickedValues session keys = List.map VNum qs → qs ≠ [] →
       ∃ m, sessionValue session (Several keys) = VNum m
            ∧ (m == sumQ qs / inject_Z (Z.of_nat (length qs)))%Q)
  ∧ (∀ session keys,
       pickedValues session keys = [] →
       sessionValue session (Several keys) = VUndef)
  ∧ (headerOk blob = true →
     Forall (λ field : string * fieldKey,
               field.1 ∉ finishFields →
               summaryOf (parse s blob options) !! field.1 =
                 merged (s !! field.1)
                   (List.map (λ session, sessionValue session field.2)
                      (sessionsOf blob options)))
       fields)
  ∧ (headerOk blob = true →
     ∀ s', parse s blob options = Normal s' →
     Forall (λ field : string * fieldKey,
               field.1 ∈ roundedFields →
               let held :=
                 merged (s !! field.1)
                   (List.map (λ session, sessionValue session field.2)
                      (sessionsOf blob options)) in
               s' !! field.1 =
                 if truthy (default VUndef held)
                 then Some (mathRound (default VUndef held)) else held)
       fields).
Proof.
  destruct (mergeSessions_fields s sessions) as (Hmerge & Hmean & Hnone).
  split; [done |]. split; [done |]. split; [done |]. split.
  - intros Hok. apply Forall_forall. intros [field key] Hin Hpass. simpl in *.
    rewrite parse_summary, summarize_early by done.
    by apply fromSessions_field.
  - intros Hok s' Hparse. apply Forall_forall. intros [field key] Hin Hround.
    simpl in *. rewrite parse_headerOk in Hparse by done.
    apply summarize_normal in Hparse as (s1 & Hfrom & ->).
    rewrite finish_rounded by done.
    pose proof (fromSessions_field
                  (buckets (decoded blob (effectiveOptions options))) s field key
                  Hin) as Hfield.
    rewrite Hfrom in Hfield. simpl in Hfield.
    unfold sessionsOf. by rewrite Hfield.
Qed.
End ParseMerge.

(** C6 as stated fails: with a first session that gives the intensity
    factor 0 and a second that gives 4/5, the first value that is not null is
    0, and the summary ends with 4/5. *)
Lemma zero_is_overwritten :
  sessionValue (RT := plainRuntime) (object [("intensity_factor", VNum 0%Q)])
    (One "intensity_factor") = VNum 0%Q
  ∧ JS.isNil (VNum 0%Q) = false
  ∧ summaryOf (parse (RT := plainRuntime) (PF := noProfile)
                 (DC := replay zeroThenPositive) ∅ (fitFile 2) VUndef)
      !! "intensityFactor" = Some (VNum (4 # 5)%Q).
Proof. split; [| split]; by vm_compute. Qed.

(** ** Decimal digits *)

Section Digits.
Import JS.
Context {RT : Runtime}.

Lemma Qred_integer (q : Q) (n : Z) : (q == inject_Z n)%Q → Qred q = inject_Z n.
Proof. intros Heq. rewrite (Qred_complete _ _ Heq). apply Qred_inject_Z. Qed.

Lemma numberToString_Qeq (q : Q) (n : Z) :
  (q == inject_Z n)%Q → Z.abs n < 10 ^ 21 → numberToString q = pretty n.
Proof.
  intros Heq Hn. unfold numberToString, isInteger.
  rewrite (Qred_integer q n Heq). simpl.
  destruct (Z.abs n <? 10 ^ 21) eqn:E; [done | apply Z.ltb_ge in E; lia].
Qed.

(** The digits of a number never start with a letter. *)
Lemma pretty_N_go_head (c : ascii) (x : N) (s s' : string) :
  (∀ d, pretty_N_char d ≠ c) → s ≠ String c s' → pretty_N_go x s ≠ String c s'.
Proof.
  intros Hc. revert s.
  induction (N.lt_wf_0 x) as [x _ IH]; intros s Hs.
  destruct (N.eq_0_gt_0_cases x) as [-> | Hpos]; [by rewrite pretty_N_go_0 |].
  rewrite pretty_N_go_step by done.
  apply IH; [by apply N.div_lt |].
  intros [= Hd _]. by apply (Hc (x `mod` 10)%N).
Qed.

Lemma pretty_Z_not_length (z : Z) : pretty z ≠ "length".
Proof.
  assert (∀ d, pretty_N_char d ≠ "l"%char) as Hl
    by (intros d; unfold pretty_N_char; by repeat case_match).
  destruct z as [| p | p]; unfold pretty, pretty_Z; [done | | done].
  unfold pretty, pretty_positive, pretty, pretty_N.
  case_decide; [done |]. by apply pretty_N_go_head.
Qed.

(** Indexing the table with the digits of an integer. *)
Lemma elementFrom_pretty (i : nat) (table : list string) (n : Z) :
  elementFrom i table (pretty n) =
    if decide (Z.of_nat i ≤ n)
    then from_option VStr VUndef (table !! (Z.to_nat n - i)%nat)
    else VUndef.
Proof.
  revert i. induction table as [| x table IH]; intros i; simpl.
  - by case_decide.
  - destruct (String.eqb_spec (pretty (Z.of_nat i)) (pretty n)) as [Heq | Hne].
    + apply (inj pretty) in Heq. subst n.
      rewrite decide_True by lia. by rewrite Nat2Z.id, Nat.sub_diag.
    + rewrite IH. assert (Z.of_nat i ≠ n) by congruence.
      repeat case_decide; try lia; [| done].
      replace (Z.to_nat n - i)%nat with (S (Z.to_nat n - S i)) by lia. done.
Qed.

Lemma elementAt_integer (table : list string) (q : Q) (n : Z) :
  (q == inject_Z n)%Q → Z.abs n < 10 ^ 21 →
  elementAt table (VNum q) =
    if decide (0 ≤ n) then from_option VStr VUndef (table !! Z.to_nat n)
    else VUndef.
Proof.
  intros Heq Hn. unfold elementAt. simpl.
  rewrite (numberToString_Qeq q n Heq Hn).
  destruct (String.eqb_spec (pretty n) "length") as [Hlen | _];
    [by apply pretty_Z_not_length in Hlen |].
  rewrite elementFrom_pretty. simpl. by rewrite Nat.sub_0_r.
Qed.
End Digits.

(** ** The end of [parse]: pedal balance (C4) and primary benefit (C7) *)

Section Finish.
Import JS.
Context {RT : Runtime}.

Lemma numberToString_proper (q q' : Q) :
  (q == q')%Q → numberToString q = numberToString q'.
Proof. intros Heq. unfold numberToString, isInteger. by rewrite (Qred_complete _ _ Heq). Qed.

Lemma le_number (a : value) (k : Q) :
  le a (VNum k) = match toNumber a with
                  | Some x => Qle_bool x k
                  | None => false
                  end.
Proof. by destruct a. Qed.

Lemma decodePedalBalance_some s (v : Q) :
  truthy (getProp (getField s "pedalBalance") "right") = true →
  toNumber (getProp (getField s "pedalBalance") "value") = Some v →
  (v <= 10000)%Q →
  decodePedalBalance s !! "pedalBalance" =
    Some (VStr ("L " +:+ numberToString (inject_Z (100 - roundHalfUp (v / 100)))
                +:+ "% / R " +:+ numberToString (inject_Z (roundHalfUp (v / 100)))
                +:+ "%")).
Proof.
  intros Hright Hvalue Hle. unfold decodePedalBalance.
  rewrite Hright, le_number, Hvalue. apply Qle_bool_iff in Hle. rewrite Hle.
  simpl. rewrite lookup_insert_eq. unfold mathRound, divBy, sub. rewrite Hvalue.
  simpl. rewrite Qred_inject_Z.
  rewrite (roundHalfUp_proper (Qred (v / inject_Z 100)) (v / 100))
    by apply Qred_correct.
  rewrite (numberToString_proper
             (Qred (100 - inject_Z (roundHalfUp (v / 100))))
             (inject_Z (100 - roundHalfUp (v / 100)))); [done |].
  rewrite Qred_correct. unfold Z.sub.
  rewrite inject_Z_plus, inject_Z_opp. reflexivity.
Qed.

Lemma decodePedalBalance_none s :
  truthy (getProp (getField s "pedalBalance") "right") = false
  ∨ le (getProp (getField s "pedalBalance") "value") (VNum 10000%Q) = false →
  decodePedalBalance s !! "pedalBalance" = None.
Proof.
  intros Hcond. unfold decodePedalBalance.
  destruct Hcond as [-> | ->]; rewrite ?andb_false_r; simpl;
    by rewrite lookup_delete_eq.
Qed.

Lemma decodePrimaryBenefit_lookup s :
  decodePrimaryBenefit s !! "primaryBenefit" =
    if truthy (getField s "primaryBenefit")
    then Some (elementAt primaryBenefits (getField s "primaryBenefit"))
    else s !! "primaryBenefit".
Proof. unfold decodePrimaryBenefit. case_match; [by rewrite lookup_insert_eq | done]. Qed.

Lemma finish_pedalBalance fitObj bs s :
  ∃ pre, finish fitObj bs s = decodePedalBalance pre
         ∧ pre !! "pedalBalance" = s !! "pedalBalance".
Proof.
  eexists. split; [reflexivity |].
  rewrite decodePrimaryBenefit_frame, deviceIds_frame, workoutDetails_frame by done.
  apply roundFields_frame. solve_notin.
Qed.

Lemma finish_primaryBenefit fitObj bs s :
  finish fitObj bs s !! "primaryBenefit" =
    if truthy (getField s "primaryBenefit")
    then Some (elementAt primaryBenefits (getField s "primaryBenefit"))
    else s !! "primaryBenefit".
Proof.
  unfold finish. rewrite decodePedalBalance_frame by done.
  rewrite decodePrimaryBenefit_lookup. unfold getField.
  rewrite deviceIds_frame, workoutDetails_frame by done.
  rewrite roundFields_frame by solve_notin. done.
Qed.

Lemma sportProfile_abrupt sports s e s' :
  sportProfile sports s = Abrupt e s' → e ∈ typeErrors.
Proof.
  revert s. induction sports as [| sp sports IH]; intros s; simpl; [done |].
  unfold typeErrors.
  repeat case_match; try (by apply IH); intros [= <- _]; solve_in.
Qed.

Lemma summarize_abrupt fitObj bs s e s' :
  summarize fitObj bs s = Abrupt e s' → e ∈ typeErrors.
Proof.
  unfold summarize, fromSessions.
  destruct (bucket bs "sessions").
  - unfold logFields, typeErrors. repeat case_match; try done.
    intros [= <- _]. solve_in.
  - destruct (sportProfile _ _) eqn:Esp.
    + unfold logFields, typeErrors. repeat case_match; try done.
      intros [= <- _]. solve_in.
    + intros [= <- _]. by eapply sportProfile_abrupt.
Qed.

End Finish.

Section ParseFinish.
Import JS.
Context {RT : Runtime} {PF : Profile} {DC : Decoder}.

(** What a field fed by the sessions holds when the last stage starts. *)
Lemma parse_normal s blob options s' :
  headerOk blob = true → parse s blob options = Normal s' →
  ∃ s1, s' = finish (fitObj (decoded blob (effectiveOptions options)))
               (buckets (decoded blob (effectiveOptions options))) s1
        ∧ ∀ field key, (field, key) ∈ fields →
            s1 !! field =
              merged (s !! field)
                (List.map (λ session, sessionValue session key)
                   (sessionsOf blob options)).
Proof.
  intros Hok Hparse. rewrite parse_headerOk in Hparse by done.
  apply summarize_normal in Hparse as (s1 & Hfrom & ->).
  exists s1. split; [done |]. intros field key Hin.
  pose proof (fromSessions_field
                (buckets (decoded blob (effectiveOptions options))) s field key Hin)
    as Hfield.
  by rewrite Hfrom in Hfield.
Qed.

(** C4. After a parse that returns, let [raw] be the pedal balance that the
    merge of the sessions left in the summary (the left_right_balance of a
    session, or what the caller gave). If [raw.right] is truthy and
    [raw.value] is a number [v] that is at most 10000, the field is the
    string "L {100 - r}% / R {r}%" with [r] the rounding of [v / 100], printed
    in decimal digits; 6000 gives "L 40% / R 60%". In every other case
    ([raw.right] falsy, [raw.value] above 10000 such as 10500, or not a
    number) the field is absent from the summary. *)
Theorem pedal_balance_decoded (s : gmap string value) (blob : list byte)
    (options : value) (s' : gmap string value) :
  headerOk blob = true → parse s blob options = Normal s' →
  let raw :=
    default VUndef
      (merged (s !! "pedalBalance")
         (List.map (λ session, sessionValue session (One "left_right_balance"))
            (sessionsOf blob options))) in
  (∀ v, truthy (getProp raw "right") = true →
        toNumber (getProp raw "value") = Some v → (v <= 10000)%Q →
        s' !! "pedalBalance" =
          Some (VStr ("L " +:+ numberToString (inject_Z (100 - roundHalfUp (v / 100)))
                      +:+ "% / R "
                      +:+ numberToString (inject_Z (roundHalfUp (v / 100)))
                      +:+ "%")))
  ∧ (∀ v, truthy (getProp raw "right") = true →
          toNumber (getProp raw "value") = Some v → (0 <= v)%Q → (v <= 10000)%Q →
          0 ≤ roundHalfUp (v / 100) ≤ 100
          ∧ s' !! "pedalBalance" =
              Some (VStr ("L " +:+ pretty (100 - roundHalfUp (v / 100))
                          +:+ "% / R " +:+ pretty (roundHalfUp (v / 100))
                          +:+ "%")))
  ∧ (raw = rightBalance 6000 → s' !! "pedalBalance" = Some (VStr "L 40% / R 60%"))
  ∧ (truthy (getProp raw "right") = false → s' !! "pedalBalance" = None)
  ∧ (∀ v, toNumber (getProp raw "value") = Some v → (10000 < v)%Q →
          s' !! "pedalBalance" = None)
  ∧ (toNumber (getProp raw "value") = None → s' !! "pedalBalance" = None)
  ∧ (raw = rightBalance 10500 → s' !! "pedalBalance" = None).
Proof.
  intros Hok Hparse raw.
  destruct (parse_normal s blob options s' Hok Hparse) as (s1 & -> & Hheld).
  destruct (finish_pedalBalance
              (fitObj (decoded blob (effectiveOptions options)))
              (buckets (decoded blob (effectiveOptions options))) s1)
    as (pre & -> & Hpre).
  assert (getField pre "pedalBalance" = raw) as Hraw.
  { unfold getField, raw. rewrite Hpre.
    by rewrite (Hheld "pedalBalance" (One "left_right_balance"))
      by (unfold fields; solve_in). }
  assert (∀ v, truthy (getProp raw "right") = true →
               toNumber (getProp raw "value") = Some v → (v <= 10000)%Q →
               decodePedalBalance pre !! "pedalBalance" =
                 Some (VStr ("L " +:+ numberToString
                                        (inject_Z (100 - roundHalfUp (v / 100)))
                             +:+ "% / R "
                             +:+ numberToString (inject_Z (roundHalfUp (v / 100)))
                             +:+ "%"))) as Hsome.
  { intros v Hright Hvalue Hle. apply decodePedalBalance_some; by rewrite ?Hraw. }
  assert (∀ v, toNumber (getProp raw "value") = Some v → (10000 < v)%Q →
               decodePedalBalance pre !! "pedalBalance" = None) as Habove.
  { intros v Hvalue Hlt. apply decodePedalBalance_none. right.
    rewrite Hraw, le_number, Hvalue.
    destruct (Qle_bool v 10000) eqn:E; [| done].
    apply Qle_bool_iff in E. lra. }
  assert (∀ v, (0 <= v)%Q → (v <= 10000)%Q → 0 ≤ roundHalfUp (v / 100) ≤ 100)
    as Hrange.
  { intros v Hlo Hhi.
    assert (v / 100 == v * (1 # 100))%Q as Hdiv by field.
    split.
    - change 0 with (roundHalfUp 0). apply Qfloor_resp_le. rewrite Hdiv. lra.
    - change 100 with (roundHalfUp 100). apply Qfloor_resp_le. rewrite Hdiv. lra. }
  split; [exact Hsome |]. split; [| split; [| split; [| split; [| split]]]].
  - intros v Hright Hvalue Hlo Hhi. split; [by apply Hrange |].
    rewrite (Hsome v) by done.
    pose proof (Hrange v Hlo Hhi). by rewrite !numberToString_integer by lia.
  - intros Hsix. rewrite (Hsome 6000%Q); rewrite ?Hsix; done.
  - intros Hright. apply decodePedalBalance_none. left. by rewrite Hraw.
  - exact Habove.
  - intros Hnan. apply decodePedalBalance_none. right.
    by rewrite Hraw, le_number, Hnan.
  - intros Hraw'. apply (Habove 10500%Q); by rewrite ?Hraw'.
Qed.
(** C7, as the code has it. A parse that passed the header checks throws
    only for a sport name that is not a string or for caller-given devices
    that cannot be spread, never for a primary benefit code. When it
    returns: a code from 1 to 7 left by the merge of the sessions is replaced
    by the string of the table at that index; an integer code below 0 or
    above 7 is replaced by undefined, and does not pass through; a value that
    is falsy, the code 0 among them, is left as it is and never decoded. *)
Theorem primary_benefit_decoded (s : gmap string value) (blob : list byte)
    (options : value) :
  headerOk blob = true →
  let held :=
    merged (s !! "primaryBenefit")
      (List.map (λ session, sessionValue session (One "primary_benefit"))
         (sessionsOf blob options)) in
  primaryBenefits =
    ["None"; "Recovery"; "Base"; "Tempo"; "Threshold"; "VO2Max"; "Anaerobic";
     "Sprint"]
  ∧ (∀ e s', parse s blob options = Abrupt e s' → e ∈ typeErrors)
  ∧ (∀ s', parse s blob options = Normal s' →
       (∀ q n, held = Some (VNum q) → (q == inject_Z n)%Q → 1 ≤ n ≤ 7 →
               s' !! "primaryBenefit" = VStr <$> primaryBenefits !! Z.to_nat n)
       ∧ (∀ q n, held = Some (VNum q) → (q == inject_Z n)%Q →
                 n < 0 ∨ 7 < n → Z.abs n < 10 ^ 21 →
                 s' !! "primaryBenefit" = Some VUndef)
       ∧ (∀ v, held = Some v → truthy v = false → s' !! "primaryBenefit" = Some v)
       ∧ (held = None → s' !! "primaryBenefit" = None)).
Proof.
  intros Hok held. split; [done |]. split.
  { intros e s' Hparse. rewrite parse_headerOk in Hparse by done.
    by eapply summarize_abrupt. }
  intros s' Hparse.
  destruct (parse_normal s blob options s' Hok Hparse) as (s1 & -> & Hheld).
  specialize (Hheld "primaryBenefit" (One "primary_benefit")).
  rewrite finish_primaryBenefit. unfold getField.
  rewrite Hheld by (unfold fields; solve_in). fold held.
  assert (∀ q n, (q == inject_Z n)%Q → n ≠ 0 → truthy (VNum q) = true) as Htruthy.
  { intros q n Heq Hn. simpl. apply negb_true_iff.
    destruct (Qeq_bool q 0) eqn:E; [| done].
    apply Qeq_bool_iff in E. rewrite Heq in E.
    change 0%Q with (inject_Z 0) in E.
    apply (proj1 (inject_Z_injective n 0)) in E. lia. }
  split; [| split; [| split]].
  - intros q n -> Heq Hn. simpl default. rewrite (Htruthy q n) by (done || lia).
    rewrite (elementAt_integer _ q n) by (done || lia).
    rewrite decide_True by lia.
    assert (n = 1 ∨ n = 2 ∨ n = 3 ∨ n = 4 ∨ n = 5 ∨ n = 6 ∨ n = 7)
      as Hcases by lia.
    by destruct Hcases as [-> | [-> | [-> | [-> | [-> | [-> | ->]]]]]].
  - intros q n -> Heq Hn Hbig. simpl default.
    rewrite (Htruthy q n) by (done || lia).
    rewrite (elementAt_integer _ q n) by done.
    case_decide; [| done].
    rewrite lookup_ge_None_2; [done |]. simpl. lia.
  - intros v -> Hfalsy. simpl default. by rewrite Hfalsy.
  - by intros ->.
Qed.
End ParseFinish.

(** C7 as stated fails: the code 8 does not pass through, the summary ends
    with an undefined primaryBenefit; and the code 0 is not decoded to
    "None", the summary keeps the number 0. *)
Lemma benefit_8_is_lost :
  parse (RT := plainRuntime) (PF := noProfile) (DC := replay (benefitCode 8))
    ∅ (fitFile 1) VUndef
  = Normal (object [("distance", VNaN); ("totalTime", VNaN);
                    ("primaryBenefit", VUndef)])
  ∧ parse (RT := plainRuntime) (PF := noProfile) (DC := replay (benefitCode 0))
      ∅ (fitFile 1) VUndef
    = Normal (object [("distance", VNaN); ("totalTime", VNaN);
                      ("primaryBenefit", VNum 0%Q)]).
Proof. split; by vm_compute. Qed.

Lemma primary_benefit_decoded_witness :
  headerOk (fitFile 1) = true
  ∧ ∀ s', parse (RT := plainRuntime) (PF := noProfile) (DC := replay (benefitCode 3))
            ∅ (fitFile 1) VUndef = Normal s' →
          s' !! "primaryBenefit" = Some (VStr "Tempo").
Proof.
  split; [reflexivity |]. intros s' Hparse.
  destruct (primary_benefit_decoded (RT := plainRuntime) (PF := noProfile)
              (DC := replay (benefitCode 3)) ∅ (fitFile 1) VUndef eq_refl)
    as (_ & _ & Hdec).
  destruct (Hdec s' Hparse) as (Hin & _).
  apply (Hin (inject_Z 3) 3); [by vm_compute | reflexivity | lia].
Defined.

Lemma pedal_balance_decoded_witness :
  headerOk (fitFile 1) = true
  ∧ parse (RT := plainRuntime) (PF := noProfile) (DC := replay (balanceOf 6000))
      ∅ (fitFile 1) VUndef
    = Normal (object [("distance", VNaN); ("totalTime", VNaN);
                      ("pedalBalance", VStr "L 40% / R 60%")])
  ∧ object [("distance", VNaN); ("totalTime", VNaN);
            ("pedalBalance", VStr "L 40% / R 60%")] !! "pedalBalance"
    = Some (VStr "L 40% / R 60%").
Proof.
  split; [reflexivity |].
  assert (parse (RT := plainRuntime) (PF := noProfile) (DC := replay (balanceOf 6000))
            ∅ (fitFile 1) VUndef
          = Normal (object [("distance", VNaN); ("totalTime", VNaN);
                            ("pedalBalance", VStr "L 40% / R 60%")])) as Hparse
    by (by vm_compute).
  split; [exact Hparse |].
  destruct (pedal_balance_decoded (RT := plainRuntime) (PF := noProfile)
              (DC := replay (balanceOf 6000)) ∅ (fitFile 1) VUndef _ eq_refl Hparse)
    as (_ & _ & Hsix & _).
  apply Hsix. by vm_compute.
Defined.

(** ** The device list (C5) *)

Section Devices.
Import JS.
Context {RT : Runtime}.

Lemma elem_of_map {A B} (f : A → B) (l : list A) (y : B) :
  y ∈ List.map f l ↔ ∃ x, x ∈ l ∧ f x = y.
Proof.
  rewrite list_elem_of_In, in_map_iff.
  split; intros (x & H1 & H2); exists x.
  - by rewrite list_elem_of_In.
  - by rewrite <- list_elem_of_In.
Qed.

Lemma elem_of_filter_bool {A} (p : A → bool) (l : list A) (x : A) :
  x ∈ List.filter p l ↔ x ∈ l ∧ p x = true.
Proof. by rewrite !list_elem_of_In, filter_In. Qed.

Lemma uniqByFrom_spec {A} (f : A → string) (seen : list string) (l : list A) :
  NoDup (List.map f (uniqByFrom f seen l))
  ∧ (∀ x, x ∈ uniqByFrom f seen l → x ∈ l ∧ f x ∉ seen)
  ∧ (∀ x, x ∈ l → f x ∈ seen ∨ f x ∈ List.map f (uniqByFrom f seen l)).
Proof.
  revert seen. induction l as [| x l IH]; intros seen; simpl.
  - split; [constructor |]. split; intros x Hx; by apply elem_of_nil in Hx.
  - case_bool_decide as Hseen.
    + destruct (IH seen) as (Hnd & Hsub & Hall). split; [done |]. split.
      * intros y Hy. destruct (Hsub y Hy). split; [by right | done].
      * intros y [-> | Hy]%elem_of_cons; [by left | by apply Hall].
    + destruct (IH (f x :: seen)) as (Hnd & Hsub & Hall). simpl.
      split; [| split].
      * apply NoDup_cons. split; [| done].
        intros (y & Hy & Heq)%elem_of_map. destruct (Hsub y Hy) as [_ Hfresh].
        apply Hfresh. rewrite Heq. by left.
      * intros y [-> | Hy]%elem_of_cons; [split; [by left | done] |].
        destruct (Hsub y Hy) as [Hin Hfresh]. split; [by right |].
        intros Hin'. apply Hfresh. by right.
      * intros y [-> | Hy]%elem_of_cons; [right; by left |].
        destruct (Hall y Hy) as [[Heq | Hin]%elem_of_cons | Hin].
        -- right. rewrite Heq. by left.
        -- by left.
        -- right. by right.
Qed.

Lemma filterString_chars (p : ascii → bool) (s : string) (c : ascii) :
  c ∈ list_ascii_of_string (filterString p s) ↔
  c ∈ list_ascii_of_string s ∧ p c = true.
Proof.
  unfold filterString. rewrite list_ascii_of_string_of_list_ascii.
  apply elem_of_filter_bool.
Qed.

Lemma getDeviceString_chars (d : gmap string value) (c : ascii) :
  c ∈ list_ascii_of_string (getDeviceString d) →
  isSpace c = false ∧ isUnderscore c = false.
Proof.
  unfold getDeviceString.
  intros [[_ Hu]%filterString_chars Hs]%filterString_chars.
  by apply negb_true_iff in Hu, Hs.
Qed.

Lemma getDeviceString_ext (d1 d2 : gmap string value) :
  (∀ k, k ∈ identityKeys → d1 !! k = d2 !! k) →
  getDeviceString d1 = getDeviceString d2.
Proof.
  intros Hsame. unfold getDeviceString, getField.
  by rewrite !Hsame by (unfold identityKeys; solve_in).
Qed.

(** What the block of lines 276-292 leaves under [devices]. *)
Lemma deviceIds_devices (devices : list (gmap string value)) (s : gmap string value) :
  devices ≠ [] →
  deviceIds devices s !! "devices" =
    Some (VArr (List.map (λ d, VStr (getDeviceString d)) (validDevices devices))).
Proof.
  intros Hne. unfold deviceIds. destruct devices; [done |].
  case_match; [| rewrite lookup_insert_ne by done]; by rewrite lookup_insert_eq.
Qed.

Lemma validDevices_ids (devices : list (gmap string value)) :
  NoDup (List.map getDeviceString (validDevices devices))
  ∧ ∀ id, id ∈ List.map getDeviceString (validDevices devices) ↔
          ∃ d, d ∈ devices ∧ validDevice d = true ∧ getDeviceString d = id.
Proof.
  unfold validDevices, uniqBy.
  destruct (uniqByFrom_spec getDeviceString [] (List.filter validDevice devices))
    as (Hnd & Hsub & Hall).
  split; [done |]. intros id. split.
  - intros (d & Hd & Hid)%elem_of_map.
    destruct (Hsub d Hd) as [[Hin Hvalid]%elem_of_filter_bool _]. by exists d.
  - intros (d & Hin & Hvalid & <-).
    destruct (Hall d) as [Hnil | Hin']; [by apply elem_of_filter_bool | | done].
    by apply elem_of_nil in Hnil.
Qed.
End Devices.

Section ParseDevices.
Import JS.
Context {RT : Runtime} {PF : Profile} {DC : Decoder}.

(** C5, as the code has it. After a parse that returns and decoded at least
    one device message, the summary lists under [devices] the identity
    strings "{manufacturer}.{product name, or device type, or source type,
    or device index}.{serial number}" with underscores and white space
    removed: of the devices whose manufacturer and serial number are both
    truthy, and of no other; each string once. Two messages collapse into
    one entry when their identity strings are equal, which they are when
    they agree on the six keys the string is built from. *)
Theorem device_list (s : gmap string value) (blob : list byte) (options : value)
    (s' : gmap string value) :
  headerOk blob = true → parse s blob options = Normal s' →
  devicesOf blob options ≠ [] →
  ∃ ids : list string,
    s' !! "devices" = Some (VArr (List.map VStr ids))
    ∧ NoDup ids
    ∧ (∀ id, id ∈ ids ↔
             ∃ d, d ∈ devicesOf blob options
                  ∧ truthy (getField d "manufacturer") = true
                  ∧ truthy (getField d "serial_number") = true
                  ∧ getDeviceString d = id)
    ∧ (∀ id c, id ∈ ids → c ∈ list_ascii_of_string id →
               isSpace c = false ∧ isUnderscore c = false)
    ∧ (∀ d, getDeviceString d =
              filterString (λ c, negb (isSpace c))
                (filterString (λ c, negb (isUnderscore c))
                   (toString (getField d "manufacturer") +:+ "."
                    +:+ toString (or (getField d "product_name")
                                    (or (getField d "device_type")
                                       (or (getField d "source_type")
                                          (getField d "device_index"))))
                    +:+ "." +:+ toString (getField d "serial_number"))))
    ∧ (∀ d1 d2, (∀ k, k ∈ identityKeys → d1 !! k = d2 !! k) →
                getDeviceString d1 = getDeviceString d2).
Proof.
  intros Hok Hparse Hne.
  rewrite parse_headerOk in Hparse by done.
  apply summarize_normal in Hparse as (s1 & _ & ->).
  destruct (validDevices_ids (devicesOf blob options)) as (Hnd & Hids).
  exists (List.map getDeviceString (validDevices (devicesOf blob options))).
  split; [| split; [done |]; split; [| split; [| split; [done |]]]].
  - unfold finish.
    rewrite decodePedalBalance_frame, decodePrimaryBenefit_frame by done.
    fold (devicesOf blob options). rewrite deviceIds_devices by done.
    by rewrite List.map_map.
  - intros id. rewrite Hids. unfold validDevice.
    split; intros (d & Hin & H1); exists d; (split; [done |]).
    + destruct H1 as [[Hm Hsn]%andb_prop <-]. done.
    + destruct H1 as (Hm & Hsn & <-). by rewrite Hm, Hsn.
  - intros id c (d & _ & <-)%elem_of_map. apply getDeviceString_chars.
  - apply getDeviceString_ext.
Qed.
End ParseDevices.

(** C5 as stated fails: two device messages with the same manufacturer and
    serial number and different product names give two entries. *)
Lemma same_serial_two_devices :
  parse (RT := plainRuntime) (PF := noProfile) (DC := replay sameSerial)
    ∅ (fitFile 2) VUndef
  = Normal (object [("devices",
                     VArr [VStr "garmin.edge530.123"; VStr "garmin.hrmpro.123"])]).
Proof. by vm_compute. Qed.

Lemma device_list_witness :
  headerOk (fitFile 2) = true
  ∧ ∃ ids : list string,
      object [("devices",
               VArr [VStr "garmin.edge530.123"; VStr "garmin.hrmpro.123"])]
        !! "devices" = Some (VArr (List.map VStr ids))
      ∧ NoDup ids.
Proof.
  split; [reflexivity |].
  assert (parse (RT := plainRuntime) (PF := noProfile) (DC := replay sameSerial)
            ∅ (fitFile 2) VUndef
          = Normal (object [("devices",
                             VArr [VStr "garmin.edge530.123";
                                   VStr "garmin.hrmpro.123"])])) as Hparse
    by (by vm_compute).
  destruct (device_list (RT := plainRuntime) (PF := noProfile)
              (DC := replay sameSerial) ∅ (fitFile 2) VUndef _ eq_refl Hparse)
    as (ids & Hids & Hnd & _); [by vm_compute |].
  by exists ids.
Defined.

(** ** The paused time (C8) *)

Section Paused.
Import JS.
Context {RT : Runtime} {PF : Profile} {DC : Decoder}.

Lemma dispatch_event st m :
  dispatch st "event" m =
    {| fitObj := fitObj st; buckets := push "events" m (buckets st);
       tables := tables st; loopIndex := loopIndex st;
       lastStopTimestamp :=
         (timerEvent m (lastStopTimestamp st) (pausedTime st)).1;
       pausedTime := (timerEvent m (lastStopTimestamp st) (pausedTime st)).2 |}.
Proof. unfold dispatch. simpl. by destruct (timerEvent _ _ _). Qed.

Lemma timerEvent_start m (t1 t2 : Z) (p : Q) :
  getField m "event" = VStr "timer" → getField m "event_type" = VStr "start" →
  getField m "timestamp" = VDate t2 →
  ∃ q, timerEvent m (VDate t1) (VNum p) = (VDate t1, VNum q)
       ∧ (q == p + (inject_Z t2 - inject_Z t1) / 1000)%Q.
Proof.
  intros He Ht Hts. unfold timerEvent. rewrite He, Ht, Hts. simpl.
  eexists. split; [done |]. by rewrite !Qred_correct.
Qed.

Lemma timerEventAt_fields eventType ms :
  getField (timerEventAt eventType ms) "event" = VStr "timer"
  ∧ getField (timerEventAt eventType ms) "event_type" = VStr eventType
  ∧ getField (timerEventAt eventType ms) "timestamp" = VDate ms.
Proof.
  unfold timerEventAt, object, getField. simpl.
  repeat split; by simplify_map_eq.
Qed.

(** Every key of the summary outside the fields that [parse] writes is left
    as the caller gave it, however the call ends. *)
Lemma parse_frame s blob options k :
  k ∉ sessionFields → k ∉ finishFields →
  summaryOf (parse s blob options) !! k = s !! k.
Proof.
  intros Hs Hf. destruct (headerOk blob) eqn:Hok.
  - rewrite parse_summary by done. by apply summarize_frame.
  - destruct (parse_headerBad s blob options Hok) as (e & _ & ->). done.
Qed.

(** C8, as the code has it. A timer event "stop_all" records its timestamp;
    a timer event "start" met while a stop is recorded adds the time since
    that stop, in seconds, to the paused time, and a start met before any
    stop adds nothing; a start, a stop 100000 ms later and a start 160000 ms
    after the first leave a paused time of 60. The paused time is a local of
    [parse]: the events change neither [fitObj] nor any array but [events],
    [parse] writes no field of the summary but the ones listed, and the
    total time is the rounded sum of the sessions' elapsed times, with
    nothing subtracted. *)
Theorem paused_time (s : gmap string value) (blob : list byte) (options : value) :
  (∀ st m t1 t2 p,
     getField m "event" = VStr "timer" → getField m "event_type" = VStr "start" →
     getField m "timestamp" = VDate t2 →
     lastStopTimestamp st = VDate t1 → pausedTime st = VNum p →
     ∃ q, pausedTime (dispatch st "event" m) = VNum q
          ∧ (q == p + (inject_Z t2 - inject_Z t1) / 1000)%Q
          ∧ lastStopTimestamp (dispatch st "event" m) = VDate t1)
  ∧ (∀ st m,
       getField m "event" = VStr "timer" →
       getField m "event_type" = VStr "stop_all" →
       lastStopTimestamp (dispatch st "event" m) = getField m "timestamp"
       ∧ pausedTime (dispatch st "event" m) = pausedTime st)
  ∧ (∀ st m,
       getField m "event" = VStr "timer" → getField m "event_type" = VStr "start" →
       lastStopTimestamp st = VUndef →
       pausedTime (dispatch st "event" m) = pausedTime st)
  ∧ (∀ st t0,
       lastStopTimestamp st = VUndef → pausedTime st = VNum 0%Q →
       pausedTime
         (fold_left (λ st km, dispatch st km.1 km.2) (pausedOnce t0) st)
       = VNum 60%Q)
  ∧ (∀ st m,
       fitObj (dispatch st "event" m) = fitObj st
       ∧ ∀ name, name ≠ "events" →
                 bucket (buckets (dispatch st "event" m)) name
                 = bucket (buckets st) name)
  ∧ (∀ k, k ∉ sessionFields → k ∉ finishFields →
          summaryOf (parse s blob options) !! k = s !! k)
  ∧ (headerOk blob = true → sessionsOf blob options ≠ [] →
     summaryOf (parse s blob options) !! "totalTime" =
       Some (mathRound (sumBy (sessionsOf blob options) "total_elapsed_time"))).
Proof.
  split; [| split; [| split; [| split; [| split; [| split]]]]].
  - intros st m t1 t2 p He Ht Hts Hlast Hp. rewrite dispatch_event. simpl.
    rewrite Hlast, Hp.
    destruct (timerEvent_start m t1 t2 p He Ht Hts) as (q & -> & Hq).
    by exists q.
  - intros st m He Ht. rewrite dispatch_event. simpl.
    unfold timerEvent. by rewrite He, Ht.
  - intros st m He Ht Hlast. rewrite dispatch_event. simpl.
    unfold timerEvent. by rewrite He, Ht, Hlast.
  - intros st t0 Hlast Hp. unfold pausedOnce. cbn [fold_left fst snd].
    rewrite !dispatch_event. cbn [lastStopTimestamp pausedTime].
    rewrite Hlast, Hp. unfold timerEvent.
    destruct (timerEventAt_fields "start" t0) as (-> & -> & _).
    destruct (timerEventAt_fields "stop_all" (t0 + 100000)) as (-> & -> & ->).
    destruct (timerEventAt_fields "start" (t0 + 160000)) as (-> & -> & ->).
    simpl. unfold add, divBy, sub. simpl toNumber. cbn [lift2 option_map ofNumber].
    simpl toPrimitive. cbn iota. cbn [toNumber lift2 ofNumber].
    change (VNum 60%Q) with (VNum (Qred 60)).
    f_equal. apply Qred_complete. rewrite !Qred_correct.
    unfold Qminus. rewrite !inject_Z_plus. field.
  - intros st m. rewrite dispatch_event. simpl. split; [done |].
    intros name Hname. unfold bucket, push. by rewrite lookup_insert_ne.
  - intros k. apply parse_frame.
  - intros Hok Hne. rewrite parse_totals by auto.
    destruct (sessionsOf blob options); [done |].
    unfold sessionTotals. by rewrite lookup_insert_eq.
Qed.
End Paused.

(** C8 as stated fails: a parse whose timer events accumulate 60 seconds of
    paused time returns a summary with no field at all. *)
Lemma paused_time_not_in_summary :
  pausedTime (decoded (RT := plainRuntime) (PF := noProfile)
                (DC := replay (pausedOnce 1000000)) (fitFile 3) defaultOptions)
  = VNum 60%Q
  ∧ parse (RT := plainRuntime) (PF := noProfile)
      (DC := replay (pausedOnce 1000000)) ∅ (fitFile 3) VUndef
    = Normal ∅.
Proof. split; by vm_compute. Qed.

(** ** A parse with no session (C10) *)

Section NoSession.
Import JS.
Context {RT : Runtime} {PF : Profile} {DC : Decoder}.

Lemma parse_no_session s blob options :
  headerOk blob = true → sessionsOf blob options = [] →
  summaryOf (parse s blob options) =
    finish (fitObj (decoded blob (effectiveOptions options)))
      (buckets (decoded blob (effectiveOptions options))) s.
Proof.
  intros Hok Hnone. rewrite parse_summary, summarize_summary by done.
  unfold fromSessions. fold (sessionsOf blob options). by rewrite Hnone.
Qed.

(** C10, as the code has it. After a parse that passed the header checks and
    decoded no session, a pedalBalance given by the caller does not survive:
    it is deleted, a string always is, unless it is an object whose [right]
    is truthy and whose [value] is a number at most 10000, which is replaced
    by the formatted string. Every field of the caller other than the nine
    the last stage of [parse] writes is left unchanged. *)
Theorem no_session_pedal_balance (s : gmap string value) (blob : list byte)
    (options : value) :
  headerOk blob = true → sessionsOf blob options = [] →
  let s' := summaryOf (parse s blob options) in
  let given := getField s "pedalBalance" in
  (∀ text, s !! "pedalBalance" = Some (VStr text) → s' !! "pedalBalance" = None)
  ∧ (truthy (getProp given "right") = false
     ∨ le (getProp given "value") (VNum 10000%Q) = false →
     s' !! "pedalBalance" = None)
  ∧ (∀ v, truthy (getProp given "right") = true →
          toNumber (getProp given "value") = Some v → (v <= 10000)%Q →
          s' !! "pedalBalance" =
            Some (VStr ("L " +:+ numberToString
                                   (inject_Z (100 - roundHalfUp (v / 100)))
                        +:+ "% / R "
                        +:+ numberToString (inject_Z (roundHalfUp (v / 100)))
                        +:+ "%")))
  ∧ (∀ k, k ∉ finishFields → s' !! k = s !! k).
Proof.
  intros Hok Hnone s' given. unfold s'. rewrite parse_no_session by done.
  split; [| split; [| split]].
  - intros text Htext.
    destruct (finish_pedalBalance
                (fitObj (decoded blob (effectiveOptions options)))
                (buckets (decoded blob (effectiveOptions options))) s)
      as (pre & -> & Hpre).
    apply decodePedalBalance_none. left. unfold getField.
    by rewrite Hpre, Htext.
  - intros Hcond.
    destruct (finish_pedalBalance
                (fitObj (decoded blob (effectiveOptions options)))
                (buckets (decoded blob (effectiveOptions options))) s)
      as (pre & -> & Hpre).
    apply decodePedalBalance_none. unfold getField. by rewrite Hpre.
  - intros v Hright Hvalue Hle.
    destruct (finish_pedalBalance
                (fitObj (decoded blob (effectiveOptions options)))
                (buckets (decoded blob (effectiveOptions options))) s)
      as (pre & -> & Hpre).
    apply decodePedalBalance_some; unfold getField; by rewrite ?Hpre.
  - intros k Hk. by apply finish_frame.
Qed.

End NoSession.

(** C10 as stated fails: with no session decoded, a pedalBalance that the
    caller gave as a balance from the right pedal is not deleted, it is
    replaced by its formatted string. *)
Lemma given_balance_is_formatted :
  parse (RT := plainRuntime) (PF := noProfile) (DC := replay [])
    (object [("pedalBalance", rightBalance 6000)]) (fitFile 0) VUndef
  = Normal (object [("pedalBalance", VStr "L 40% / R 60%")]).
Proof. by vm_compute. Qed.

Lemma no_session_pedal_balance_witness :
  headerOk (fitFile 0) = true
  ∧ sessionsOf (RT := plainRuntime) (PF := noProfile) (DC := replay [])
      (fitFile 0) VUndef = []
  ∧ summaryOf (parse (RT := plainRuntime) (PF := noProfile) (DC := replay [])
                 (object [("pedalBalance", VStr "L 50% / R 50%");
                          ("id", VStr "a1")]) (fitFile 0) VUndef)
      !! "pedalBalance" = None.
Proof.
  split; [reflexivity |]. split; [reflexivity |].
  destruct (no_session_pedal_balance (RT := plainRuntime) (PF := noProfile)
              (DC := replay [])
              (object [("pedalBalance", VStr "L 50% / R 50%"); ("id", VStr "a1")])
              (fitFile 0) VUndef eq_refl eq_refl) as (Hstring & _).
  by apply (Hstring "L 50% / R 50%").
Defined.


(** ** The matcher (C3) *)

Section Matcher.
Import JS.
Context {RT : Runtime} {DB : Database}.




End Matcher.

(** The example of the matcher: a target of 3600 s, a stored summary of
    3620 s and one of 5000 s. *)
Example matcher_takes_the_first :
  getMatchingActivity (RT := plainRuntime)
    (DB := garminHolds [lasting 3620; lasting 5000]) ∅ (lasting 3600) None
  = VObj (lasting 3620)
  ∧ getMatchingActivity (RT := plainRuntime) (DB := garminHolds [lasting 5000])
      ∅ (lasting 3600) (Some garmin)
    = VUndef
  ∧ getMatchingActivity (RT := plainRuntime) (DB := garminHolds [])
      ∅ (lasting 3600) (Some garmin)
    = VNull.
Proof. repeat split; by vm_compute. Qed.

(** * More properties of the parser *)

(** ** The declared size of the data (lines 75-76 and 113) *)

Section DeclaredSize.
Import JS.
Context {RT : Runtime} {PF : Profile} {DC : Decoder}.

Lemma byteAt_range blob i : 0 ≤ byteAt blob i < 256.
Proof.
  unfold byteAt. destruct (blob !! i) as [b |]; simpl; [| lia].
  pose proof (Byte.to_N_bounded b). lia.
Qed.

Lemma shl32_small x n :
  0 ≤ n → 0 ≤ x * 2 ^ n < 2 ^ 31 → shl32 x n = x * 2 ^ n.
Proof.
  intros Hn Hx. unfold shl32. rewrite Z.shiftl_mul_pow2 by done.
  rewrite Z.mod_small by lia. lia.
Qed.

Lemma shl32_high x : 128 ≤ x < 256 → shl32 x 24 = x * 2 ^ 24 - 2 ^ 32.
Proof.
  intros Hx. unfold shl32. rewrite Z.shiftl_mul_pow2 by done.
  replace (x * 2 ^ 24 + 2 ^ 31) with (x * 2 ^ 24 + 2 ^ 31 - 2 ^ 32 + 1 * 2 ^ 32)
    by lia.
  rewrite Z_mod_plus_full, Z.mod_small by lia. lia.
Qed.

(** X1. The four bytes at offsets 4 to 7 are the size of the data, least
    significant byte first, when the last of them is below 128. When it is
    128 or more the shift by 24 overflows the 32-bit integer: the size is
    read as negative, the loop does not make a single turn, and the parser
    decodes no message at all. *)
Theorem declared_size (blob : list byte) (options : value) :
  (byteAt blob 7 < 128 →
     dataLength blob = byteAt blob 4 + 2 ^ 8 * byteAt blob 5
                       + 2 ^ 16 * byteAt blob 6 + 2 ^ 24 * byteAt blob 7
     ∧ 0 ≤ dataLength blob < 2 ^ 31)
  ∧ (128 ≤ byteAt blob 7 →
     dataLength blob = byteAt blob 4 + 2 ^ 8 * byteAt blob 5
                       + 2 ^ 16 * byteAt blob 6 + 2 ^ 24 * byteAt blob 7 - 2 ^ 32
     ∧ dataLength blob < 0
     ∧ recordsOf blob options = []
     ∧ sessionsOf blob options = [] ∧ sportsOf blob options = []
     ∧ devicesOf blob options = []).
Proof.
  pose proof (byteAt_range blob 4). pose proof (byteAt_range blob 5).
  pose proof (byteAt_range blob 6). pose proof (byteAt_range blob 7).
  unfold dataLength.
  rewrite (shl32_small (byteAt blob 5) 8), (shl32_small (byteAt blob 6) 16) by lia.
  split.
  - intros Hlow. rewrite (shl32_small (byteAt blob 7) 24) by lia. lia.
  - intros Hhigh. rewrite (shl32_high (byteAt blob 7)) by lia.
    split; [lia |]. split; [lia |].
    assert (Z.to_nat (dataLength blob + byteAt blob 0 - byteAt blob 0) = 0%nat)
      as Hfuel.
    { unfold dataLength.
      rewrite (shl32_small (byteAt blob 5) 8), (shl32_small (byteAt blob 6) 16),
        (shl32_high (byteAt blob 7)) by lia.
      lia. }
    unfold recordsOf, sessionsOf, sportsOf, devicesOf, decoded.
    fold (dataLength blob). by rewrite Hfuel.
Qed.
End DeclaredSize.


(** ** The arrays of messages (lines 117-188) *)

Section Collected.
Import JS.
Context {RT : Runtime} {PF : Profile} {DC : Decoder}.

Lemma collected_kinds : NoDup collected.*1.
Proof. apply (bool_decide_unpack _). by vm_compute. Qed.

Lemma collected_arrays : NoDup collected.*2.
Proof. apply (bool_decide_unpack _). by vm_compute. Qed.

Lemma same_array {A B} (l : list (A * B)) a b x :
  NoDup l.*2 → (a, x) ∈ l → (b, x) ∈ l → a = b.
Proof.
  induction l as [| [a' x'] l IH]; intros Hnd Ha Hb; [by inversion Ha |].
  rewrite fmap_cons in Hnd. apply NoDup_cons in Hnd as [Hx Hnd]. simpl in Hx.
  apply elem_of_cons in Ha as [Ha | Ha];
    apply elem_of_cons in Hb as [Hb | Hb]; simplify_eq; try done.
  - destruct Hx. apply list_elem_of_fmap. by exists (b, x').
  - destruct Hx. apply list_elem_of_fmap. by exists (a, x').
  - by apply IH.
Qed.

(** Which array one turn of the switch pushes to. *)
Lemma dispatch_buckets st kind m :
  buckets (dispatch st kind m) =
    match list_to_map (M := gmap string string) collected !! kind with
    | Some name => push name (pushedAs kind m) (buckets st)
    | None => buckets st
    end.
Proof.
  unfold dispatch, pushedAs.
  destruct (String.eqb_spec kind "event") as [-> | Hevent].
  { by destruct (timerEvent _ _ _). }
  destruct (String.eqb_spec kind "device_info") as [-> | Hdevice]; [done |].
  destruct (String.eqb_spec kind "software") as [-> | Hsoftware]; [done |].
  unfold collected. cbn [list_to_map foldr].
  rewrite !lookup_insert_ne by done.
  destruct (list_to_map pushOnly !! kind); [done |].
  by destruct (String.eqb kind "").
Qed.

Lemma bucket_push name' m bs name :
  bucket (push name' m bs) name =
    if decide (name = name') then bucket bs name ++ [m] else bucket bs name.
Proof.
  unfold push, bucket. case_decide as Hn.
  - subst. by rewrite lookup_insert_eq.
  - by rewrite lookup_insert_ne.
Qed.

Lemma dispatchAll_bucket stream st kind name :
  (kind, name) ∈ collected →
  bucket (buckets (dispatchAll stream st)) name =
    bucket (buckets st) name ++ List.map (pushedAs kind) (messagesOf kind stream).
Proof.
  intros Hin. unfold dispatchAll, messagesOf. revert st.
  induction stream as [| [kind' m] stream IH]; intros st; simpl.
  - by rewrite app_nil_r.
  - rewrite IH, dispatch_buckets.
    destruct (list_to_map collected !! kind') as [name' |] eqn:Elook.
    + apply (elem_of_list_to_map_2 (M := gmap string)) in Elook.
      rewrite bucket_push.
      destruct (String.eqb_spec kind kind') as [<- | Hkind].
      * assert (name' = name) as ->.
        { pose proof collected_kinds as Hnd.
          apply (elem_of_list_to_map_1 (M := gmap string)) in Elook, Hin; try done.
          congruence. }
        rewrite decide_True by done. by rewrite <- app_assoc.
      * rewrite decide_False; [done |]. intros ->. apply Hkind.
        exact (same_array collected kind kind' name' collected_arrays Hin Elook).
    + destruct (String.eqb_spec kind kind') as [<- | Hkind]; [| done].
      apply (elem_of_list_to_map_1 (M := gmap string)) in Hin;
        [congruence | apply collected_kinds].
Qed.

Lemma dispatch_locals st1 st2 kind m :
  locals st1 = locals st2 →
  locals (dispatch st1 kind m) = locals (dispatch st2 kind m).
Proof.
  unfold locals. intros [= Hf Hb Hl Hp]. unfold dispatch.
  rewrite Hl, Hp.
  repeat case_match; simpl; rewrite ?Hf, ?Hb, ?Hl, ?Hp; congruence.
Qed.

(** The loop leaves the locals that the switch, run over the messages it
    handled, leaves. *)
Lemma loop_locals fuel blob options crcStart st st0 :
  locals st = locals st0 →
  locals (loop fuel blob options crcStart st) =
    locals (dispatchAll (handled fuel blob options crcStart st) st0).
Proof.
  revert st st0. induction fuel as [| fuel IH]; intros st st0 Hsame; simpl.
  - done.
  - destruct (loopIndex st <? crcStart); [| done].
    unfold dispatchAll. rewrite fold_left_app.
    apply IH. unfold step.
    destruct (message _) as [m |]; simpl.
    + by apply dispatch_locals.
    + done.
Qed.

Lemma decoded_locals blob options :
  locals (decoded blob (effectiveOptions options)) =
    locals (dispatchAll (recordsOf blob options)
              (initialState (byteAt blob 1)
                 (byteAt blob 2 + shl32 (byteAt blob 3) 8) (byteAt blob 0))).
Proof. unfold decoded, recordsOf. by apply loop_locals. Qed.

Lemma decoded_bucket blob options kind name :
  (kind, name) ∈ collected →
  bucket (buckets (decoded blob (effectiveOptions options))) name =
    List.map (pushedAs kind) (messagesOf kind (recordsOf blob options)).
Proof.
  intros Hin. pose proof (decoded_locals blob options) as [= _ -> _ _].
  by rewrite (dispatchAll_bucket _ _ kind name Hin).
Qed.

(** X2. The switch collects the messages of each of its sixteen kinds in
    the array of that kind, in the order in which they are decoded, and
    pushes them to no other array; so when the loop is left each array
    holds exactly the messages of its kind, the device messages with their
    product name filled in. In particular the sessions, the sports and the
    devices that the summary is computed from are all the session, sport and
    device_info messages of the file, in order. *)
Theorem messages_collected (stream : list (string * gmap string value))
    (st : LoopState) (blob : list byte) (options : value) :
  Forall (λ kn : string * string,
            bucket (buckets (dispatchAll stream st)) kn.2 =
              bucket (buckets st) kn.2
              ++ List.map (pushedAs kn.1) (messagesOf kn.1 stream))
    collected
  ∧ Forall (λ kn : string * string,
              bucket (buckets (decoded blob (effectiveOptions options))) kn.2 =
                List.map (pushedAs kn.1) (messagesOf kn.1 (recordsOf blob options)))
      collected
  ∧ sessionsOf blob options = messagesOf "session" (recordsOf blob options)
  ∧ sportsOf blob options = messagesOf "sport" (recordsOf blob options)
  ∧ devicesOf blob options =
      List.map withProductName (messagesOf "device_info" (recordsOf blob options)).
Proof.
  split; [| split; [| split; [| split]]].
  - apply Forall_forall. intros [kind name] Hin. by apply dispatchAll_bucket.
  - apply Forall_forall. intros [kind name] Hin. by apply decoded_bucket.
  - unfold sessionsOf. rewrite (decoded_bucket _ _ "session") by (unfold collected, pushOnly; solve_in).
    unfold pushedAs. simpl. apply List.map_id.
  - unfold sportsOf. rewrite (decoded_bucket _ _ "sport") by (unfold collected, pushOnly; solve_in).
    unfold pushedAs. simpl. apply List.map_id.
  - unfold devicesOf. by rewrite (decoded_bucket _ _ "device_info") by (unfold collected; solve_in).
Qed.

(** What one turn of the switch leaves under a key of [fitObj], for a kind
    that no array collects. *)
Lemma dispatch_fitObj st kind' m kind :
  kind ∉ collected.*1 → kind ≠ "" →
  fitObj (dispatch st kind' m) !! kind =
    if String.eqb kind kind' then Some (VObj m) else fitObj st !! kind.
Proof.
  intros Hkind Hne. unfold dispatch.
  assert (kind ≠ "event" ∧ kind ≠ "device_info") as [He Hd].
  { split; intros ->; apply Hkind; unfold collected; simpl; solve_in. }
  destruct (String.eqb_spec kind' "event") as [-> | Hevent].
  { destruct (timerEvent _ _ _). simpl. by rewrite (proj2 (String.eqb_neq _ _) He). }
  destruct (String.eqb_spec kind' "device_info") as [-> | Hdevice].
  { simpl. by rewrite (proj2 (String.eqb_neq _ _) Hd). }
  destruct (String.eqb_spec kind' "software") as [-> | Hsoftware].
  { simpl. destruct (String.eqb_spec kind "software") as [-> | Hs].
    - by rewrite lookup_insert_eq.
    - by rewrite lookup_insert_ne. }
  destruct (list_to_map pushOnly !! kind') as [name |] eqn:Elook.
  { simpl. destruct (String.eqb_spec kind kind') as [-> | Hk]; [| done].
    destruct Hkind. apply (elem_of_list_to_map_2 (M := gmap string)) in Elook.
    apply list_elem_of_fmap. exists (kind', name). split; [done |].
    unfold collected. by do 2 apply list_elem_of_further. }
  destruct (String.eqb_spec kind' "") as [-> | Hempty].
  { by rewrite (proj2 (String.eqb_neq _ _) Hne). }
  simpl. destruct (String.eqb_spec kind kind') as [-> | Hk].
  - by rewrite lookup_insert_eq.
  - by rewrite lookup_insert_ne.
Qed.

Lemma dispatchAll_fitObj stream st kind :
  kind ∉ collected.*1 → kind ≠ "" →
  fitObj (dispatchAll stream st) !! kind =
    match last (messagesOf kind stream) with
    | Some m => Some (VObj m)
    | None => fitObj st !! kind
    end.
Proof.
  intros Hkind Hne. unfold dispatchAll, messagesOf. revert st.
  induction stream as [| [kind' m] stream IH]; intros st; simpl; [done |].
  rewrite IH, dispatch_fitObj by done.
  destruct (String.eqb kind kind'); [| done].
  simpl. rewrite last_cons. by destruct (last _).
Qed.

(** X3. A message of a kind that no array collects (the software message,
    and every kind the switch does not know) is stored in [fitObj] under the
    name of its kind, where it replaces the message of that kind stored
    before: when the loop is left, [fitObj] holds under that name the last
    message of the kind, and what it held before when there is none. A
    message whose kind is the empty string changes nothing, and a message
    that an array collects leaves [fitObj] as it is. *)
Theorem last_message_kept (stream : list (string * gmap string value))
    (st : LoopState) (blob : list byte) (options : value) (kind : string) :
  kind ∉ collected.*1 → kind ≠ "" →
  fitObj (dispatchAll stream st) !! kind =
    match last (messagesOf kind stream) with
    | Some m => Some (VObj m)
    | None => fitObj st !! kind
    end
  ∧ (kind ≠ "protocolVersion" → kind ≠ "profileVersion" →
     fitObj (decoded blob (effectiveOptions options)) !! kind =
       VObj <$> last (messagesOf kind (recordsOf blob options)))
  ∧ (∀ m, dispatch st "" m = st)
  ∧ (∀ known m, known ∈ collected.*1 → fitObj (dispatch st known m) = fitObj st).
Proof.
  intros Hkind Hne. split; [by apply dispatchAll_fitObj |]. split; [| split].
  - intros Hprot Hprof.
    pose proof (decoded_locals blob options) as [= -> _ _ _].
    rewrite dispatchAll_fitObj by done.
    destruct (last _); [done |]. simpl.
    by rewrite !lookup_insert_ne, lookup_empty by done.
  - intros m. by unfold dispatch.
  - intros known m Hknown. unfold dispatch.
    destruct (String.eqb_spec known "event") as [-> | Hevent].
    { by destruct (timerEvent _ _ _). }
    destruct (String.eqb_spec known "device_info") as [-> | Hdevice]; [done |].
    assert (is_Some (list_to_map (M := gmap string string) pushOnly !! known))
      as [name Hname].
    { apply list_elem_of_fmap in Hknown as ([k name] & Hk & Hin).
      simpl in Hk. subst known. unfold collected in Hin.
      apply elem_of_cons in Hin as [[= -> _] | Hin]; [done |].
      apply elem_of_cons in Hin as [[= -> _] | Hin]; [done |].
      exists name. apply (elem_of_list_to_map_1 (M := gmap string)); [| done].
      apply (bool_decide_unpack _). by vm_compute. }
    destruct (String.eqb_spec known "software") as [-> | Hsoftware].
    { by vm_compute in Hname. }
    by rewrite Hname.
Qed.
End Collected.

Lemma last_message_kept_witness :
("workout" ∉ collected.*1) ∧ "workout" ≠ ""
  ∧ fitObj (dispatchAll (RT := plainRuntime) (PF := noProfile) (DC := replay [])
              [("workout", object [("wkt_name", VStr "a")]);
               ("session", ∅);
               ("workout", object [("wkt_name", VStr "b")])]
              (initialState 16 0 12)) !! "workout"
    = Some (VObj (object [("wkt_name", VStr "b")])).
Proof.
  assert ("workout" ∉ collected.*1) as Hkind
    by (apply (bool_decide_unpack _); by vm_compute).
  split; [exact Hkind |]. split; [done |].
  destruct (last_message_kept (RT := plainRuntime) (PF := noProfile)
              (DC := replay [])
              [("workout", object [("wkt_name", VStr "a")]);
               ("session", ∅);
               ("workout", object [("wkt_name", VStr "b")])]
              (initialState 16 0 12) [] VUndef "workout" Hkind)
    as [Hlast _]; [done |].
  rewrite Hlast. by vm_compute.
Defined.


(** ** The workout, the product name and the sport profile *)

Section Details.
Import JS.
Context {RT : Runtime} {PF : Profile} {DC : Decoder}.

Lemma parse_normal_finish s blob options s' :
  headerOk blob = true → parse s blob options = Normal s' →
  ∃ s1, fromSessions (buckets (decoded blob (effectiveOptions options))) s
          = Normal s1
        ∧ s' = finish (fitObj (decoded blob (effectiveOptions options)))
                 (buckets (decoded blob (effectiveOptions options))) s1.
Proof.
  intros Hok Hparse. rewrite parse_headerOk in Hparse by done.
  by apply summarize_normal.
Qed.

Lemma workoutDetails_lookup fitObj s :
  workoutDetails fitObj s !! "workoutName" =
    (if truthy (getProp (getField fitObj "workout") "wkt_name")
     then Some (getProp (getField fitObj "workout") "wkt_name")
     else s !! "workoutName")
  ∧ workoutDetails fitObj s !! "workoutNotes" =
      (if truthy (getProp (getField fitObj "workout") "notes")
       then Some (getProp (getField fitObj "workout") "notes")
       else s !! "workoutNotes").
Proof.
  unfold workoutDetails.
  repeat case_match; rewrite ?lookup_insert_eq, ?lookup_insert_ne by done;
    by rewrite ?lookup_insert_eq.
Qed.

(** X4. After a parse that returns, the workout name and the workout notes
    of the summary are those of the last workout message of the file, each
    taken when it is truthy; a field whose source is missing or falsy, and
    both fields when the file has no workout message, are left as the caller
    gave them. *)
Theorem workout_of_last_message (s : gmap string value) (blob : list byte)
    (options : value) (s' : gmap string value) :
  headerOk blob = true → parse s blob options = Normal s' →
  let workout :=
    default ∅ (last (messagesOf "workout" (recordsOf blob options))) in
  s' !! "workoutName" =
    (if truthy (getField workout "wkt_name")
     then Some (getField workout "wkt_name") else s !! "workoutName")
  ∧ s' !! "workoutNotes" =
      (if truthy (getField workout "notes")
       then Some (getField workout "notes") else s !! "workoutNotes").
Proof.
  intros Hok Hparse workout.
  destruct (parse_normal_finish s blob options s' Hok Hparse) as (s1 & Hfrom & ->).
  pose proof (fromSessions_frame
                (buckets (decoded blob (effectiveOptions options))) s) as Hframe.
  rewrite Hfrom in Hframe. simpl in Hframe.
  assert (getField (fitObj (decoded blob (effectiveOptions options))) "workout"
          = from_option VObj VUndef
              (last (messagesOf "workout" (recordsOf blob options)))) as Hw.
  { unfold getField.
    pose proof (decoded_locals blob options) as [= -> _ _ _].
    rewrite dispatchAll_fitObj;
      [| apply (bool_decide_unpack _); by vm_compute | done].
    by destruct (last _). }
  assert (∀ key, getProp
                   (getField (fitObj (decoded blob (effectiveOptions options)))
                      "workout") key = getField workout key) as Hprop.
  { intros key. rewrite Hw. unfold workout.
    destruct (last _); simpl; [done |]. unfold getField. by rewrite lookup_empty. }
  unfold finish.
  rewrite !decodePedalBalance_frame, !decodePrimaryBenefit_frame,
    !deviceIds_frame by done.
  destruct (workoutDetails_lookup
              (fitObj (decoded blob (effectiveOptions options))) (roundFields s1))
    as [-> ->].
  rewrite !Hprop, !roundFields_frame by solve_notin.
  rewrite !Hframe by (unfold sessionFields; solve_notin). done.
Qed.

(** X5. Filling in the product name of a device message changes no other
    key of the message, leaves a message that has a truthy product name as
    it is, changes a message only into one whose product name is truthy, and
    does nothing when done twice. *)
Theorem product_name_filled (m : gmap string value) :
  (∀ k, k ≠ "product_name" → withProductName m !! k = m !! k)
  ∧ (truthy (getField m "product_name") = true → withProductName m = m)
  ∧ (withProductName m ≠ m →
     truthy (getField (withProductName m) "product_name") = true
     ∧ truthy (getField m "manufacturer") = true
     ∧ truthy (getField m "product") = true)
  ∧ withProductName (withProductName m) = withProductName m.
Proof.
  assert (withProductName m = m
          ∨ truthy (getField (withProductName m) "product_name") = true
            ∧ truthy (getField m "manufacturer") = true
            ∧ truthy (getField m "product") = true) as Hcases.
  { unfold withProductName.
    destruct (truthy (getField m "product_name")); simpl; [by left |].
    destruct (truthy (getField m "manufacturer")) eqn:Em; simpl; [| by left].
    destruct (truthy (getField m "product")) eqn:Ep; simpl; [| by left].
    destruct (product !! _) as [names |]; [| by left].
    destruct (truthy (getField names _)) eqn:En; [| by left].
    right. unfold getField at 1. rewrite lookup_insert_eq. simpl. by rewrite En. }
  split; [| split; [| split]].
  - intros k Hk. unfold withProductName.
    repeat case_match; try done. by rewrite lookup_insert_ne.
  - intros Htruthy. unfold withProductName. by rewrite Htruthy.
  - intros Hchanged. by destruct Hcases.
  - destruct Hcases as [Esame | (Hname & _)]; [by rewrite !Esame |].
    unfold withProductName at 1. by rewrite Hname.
Qed.

Lemma sportNames_cons sp sports :
  sportNames (sp :: sports) =
    match getField sp "name" with
    | VStr name => if String.eqb name "" then sportNames sports
                   else name :: sportNames sports
    | _ => sportNames sports
    end.
Proof.
  unfold sportNames. cbn [omap list_omap].
  destruct (getField sp "name") as [| | | | | name | | |]; try done.
  by destruct (String.eqb name "").
Qed.

Lemma sportProfile_text sports s :
  forallb nameIsText sports = true →
  sportProfile sports s =
    Normal (match last (sportNames sports) with
            | Some name => <["sportProfile" := VStr (stripNonAscii name)]> s
            | None => s
            end).
Proof.
  revert s. induction sports as [| sp sports IH]; intros s Htext; [done |].
  cbn [forallb] in Htext. apply andb_prop in Htext as [Hsp Htext].
  rewrite sportNames_cons. cbn [sportProfile].
  unfold nameIsText in Hsp.
  destruct (getField sp "name") as [| | | | | name | | |] eqn:Ename;
    try (apply negb_true_iff in Hsp; rewrite Hsp; by apply IH).
  cbn [truthy]. destruct (String.eqb name "") eqn:Eempty; simpl;
    [by apply IH |].
  rewrite IH by done. rewrite last_cons.
  destruct (last (sportNames sports)); [| done].
  by rewrite insert_insert_eq.
Qed.

Lemma sportProfile_not_text sports s :
  forallb nameIsText sports = false →
  ∃ s', sportProfile sports s
        = Abrupt "TypeError: sp.name.replace is not a function" s'.
Proof.
  revert s. induction sports as [| sp sports IH]; intros s Htext; [done |].
  simpl in Htext. apply andb_false_iff in Htext.
  simpl. unfold nameIsText in Htext.
  destruct (getField sp "name") as [| | | | | name | | |] eqn:Ename;
    simpl in *;
    try (destruct Htext as [Hsp | Htext]; [done | by apply IH]);
    try (by eexists).
  - destruct b; [by eexists |].
    destruct Htext as [Hsp | Htext]; [done | by apply IH].
  - destruct (Qeq_bool q 0); simpl in *; [| by eexists].
    destruct Htext as [Hsp | Htext]; [done | by apply IH].
  - destruct Htext as [Hsp | Htext]; [done |].
    destruct (String.eqb name ""); simpl; by apply IH.
Qed.

(** X6. The sport profile is read only when the file has a session. Then,
    if every sport message has a name that is a string (or no name), the
    summary gets the name of the last sport message whose name is not
    empty, without its code units from 128 up (the strings of the model
    have code units below 256), and keeps the caller's value
    when no sport has a name; and if some sport message has a truthy name
    that is not a string, the parse throws a TypeError. With no session the
    field is left as the caller gave it, whatever sports the file has. *)
Theorem sport_profile_of_last_sport (s : gmap string value) (blob : list byte)
    (options : value) :
  headerOk blob = true →
  (sessionsOf blob options = [] →
     summaryOf (parse s blob options) !! "sportProfile" = s !! "sportProfile")
  ∧ (sessionsOf blob options ≠ [] →
     forallb nameIsText (sportsOf blob options) = true →
     summaryOf (parse s blob options) !! "sportProfile" =
       match last (sportNames (sportsOf blob options)) with
       | Some name => Some (VStr (stripNonAscii name))
       | None => s !! "sportProfile"
       end)
  ∧ (sessionsOf blob options ≠ [] →
     forallb nameIsText (sportsOf blob options) = false →
     ∃ s', parse s blob options
           = Abrupt "TypeError: sp.name.replace is not a function" s')
  ∧ (∀ name c, c ∈ list_ascii_of_string (stripNonAscii name) →
               (codeUnit c < 128)%N ∧ c ∈ list_ascii_of_string name).
Proof.
  intros Hok. split; [| split; [| split]].
  - intros Hnone. rewrite parse_no_session by done.
    apply finish_frame. unfold finishFields. solve_notin.
  - intros Hsome Htext. rewrite parse_summary by done.
    rewrite summarize_early by (unfold finishFields; solve_notin).
    unfold fromSessions. fold (sessionsOf blob options) (sportsOf blob options).
    destruct (sessionsOf blob options) as [| session sessions]; [done |].
    rewrite sportProfile_text by done.
    destruct (last _); cbn [summaryOf]; [by rewrite lookup_insert_eq |].
    rewrite mergeSessions_frame by (unfold fields; simpl; solve_notin).
    by apply sessionTotals_frame.
  - intros Hsome Htext. rewrite parse_headerOk by done.
    unfold summarize, fromSessions.
    fold (sessionsOf blob options) (sportsOf blob options).
    destruct (sessionsOf blob options) as [| session sessions]; [done |].
    destruct (sportProfile_not_text (sportsOf blob options)
                (mergeSessions fields (session :: sessions)
                   (sessionTotals (session :: sessions) s)) Htext) as [s' ->].
    by exists s'.
  - intros name c [Hin Hlow]%filterString_chars. split; [| done].
    by apply N.ltb_lt.
Qed.
End Details.

Lemma workout_of_last_message_witness :
  headerOk (fitFile 2) = true
  ∧ object [("workoutName", VStr "b")] !! "workoutName" = Some (VStr "b").
Proof.
  split; [reflexivity |].
  assert (parse (RT := plainRuntime) (PF := noProfile)
            (DC := replay [("workout", object [("wkt_name", VStr "a")]);
                           ("workout", object [("wkt_name", VStr "b")])])
            ∅ (fitFile 2) VUndef
          = Normal (object [("workoutName", VStr "b")])) as Hparse
    by (by vm_compute).
  destruct (workout_of_last_message (RT := plainRuntime) (PF := noProfile)
              (DC := replay [("workout", object [("wkt_name", VStr "a")]);
                             ("workout", object [("wkt_name", VStr "b")])])
              ∅ (fitFile 2) VUndef _ eq_refl Hparse) as [Hname _].
  rewrite Hname. by vm_compute.
Defined.

Lemma sport_profile_of_last_sport_witness :
  headerOk (fitFile 3) = true
  ∧ summaryOf (parse (RT := plainRuntime) (PF := noProfile)
                 (DC := replay [("session", ∅);
                                ("sport", object [("name", VStr "Road")]);
                                ("sport", object [("name", VStr "Gravel")])])
                 ∅ (fitFile 3) VUndef) !! "sportProfile"
    = Some (VStr "Gravel").
Proof.
  split; [reflexivity |].
  destruct (sport_profile_of_last_sport (RT := plainRuntime) (PF := noProfile)
              (DC := replay [("session", ∅);
                             ("sport", object [("name", VStr "Road")]);
                             ("sport", object [("name", VStr "Gravel")])])
              ∅ (fitFile 3) VUndef eq_refl) as (_ & Htext & _).
  rewrite Htext; by vm_compute.
Defined.

(** * The battery statuses *)

Section Battery.
Import JS.
Context {RT : Runtime} {PF : Profile} {DC : Decoder}.

Lemma uniqByFrom_first {A} (f : A → string) (seen : list string)
    (before after : list A) (d : A) :
  f d ∉ seen → Forall (λ b, f b ≠ f d) before →
  d ∈ uniqByFrom f seen (before ++ d :: after).
Proof.
  intros Hfresh Hbefore. revert seen Hfresh.
  induction Hbefore as [| b before Hb _ IH]; intros seen Hfresh; simpl.
  - rewrite bool_decide_eq_false_2 by done. by left.
  - case_bool_decide; [by apply IH |].
    right. apply IH. by intros [? | ?]%elem_of_cons.
Qed.

Lemma NoDup_map_eq {A} (f : A → string) (l : list A) (x y : A) :
  NoDup (List.map f l) → x ∈ l → y ∈ l → f x = f y → x = y.
Proof.
  induction l as [| a l IH]; simpl; intros Hnd Hx Hy Heq.
  - by apply elem_of_nil in Hx.
  - apply NoDup_cons in Hnd as [Hfresh Hnd].
    apply elem_of_cons in Hx as [-> | Hx]; apply elem_of_cons in Hy as [-> | Hy].
    + done.
    + destruct Hfresh. apply elem_of_map. by exists y.
    + destruct Hfresh. apply elem_of_map. by exists x.
    + by apply IH.
Qed.

Lemma filter_sublist {A} (p : A → bool) (l : list A) :
  List.filter p l `sublist_of` l.
Proof.
  induction l as [| a l IH]; simpl; [done |].
  destruct (p a); [by apply sublist_skip | by apply sublist_cons].
Qed.

Lemma map_sublist {A B} (f : A → B) (l1 l2 : list A) :
  l1 `sublist_of` l2 → List.map f l1 `sublist_of` List.map f l2.
Proof.
  induction 1; simpl; [done | by apply sublist_skip | by apply sublist_cons].
Qed.

Lemma validDevices_first (before after : list (gmap string value))
    (d : gmap string value) :
  validDevice d = true →
  Forall (λ b, validDevice b = false ∨ getDeviceString b ≠ getDeviceString d)
    before →
  d ∈ validDevices (before ++ d :: after).
Proof.
  intros Hvalid Hbefore. unfold validDevices, uniqBy.
  rewrite List.filter_app. simpl. rewrite Hvalid.
  apply uniqByFrom_first; [apply not_elem_of_nil |].
  induction Hbefore as [| b before Hb _ IH]; simpl; [done |].
  destruct (validDevice b) eqn:Eb; [| done].
  constructor; [| done]. by destruct Hb.
Qed.

Lemma deviceIds_battery (devices : list (gmap string value))
    (s : gmap string value) :
  deviceIds devices s !! "deviceBattery" =
    match batteryDevices devices with
    | [] => s !! "deviceBattery"
    | batteries => Some (VArr (List.map batteryEntry batteries))
    end.
Proof.
  unfold deviceIds, batteryDevices. destruct devices as [| d devices].
  - done.
  - destruct (List.filter _ _); [by rewrite lookup_insert_ne |].
    by rewrite lookup_insert_eq.
Qed.

(** X7. After a parse that returns, the summary holds under
    [deviceBattery] one entry for each listed device with a truthy battery
    status: the identity string of the device and that status, in the order
    of the device list and with no identity string twice. The status is the
    one of the first message of the device: what a later message with the
    same identity string holds is not read, so a device whose first message
    has no battery status gets no entry. When no listed device has a
    battery status, the field is left as the caller gave it. *)
Theorem battery_statuses (s : gmap string value) (blob : list byte)
    (options : value) (s' : gmap string value) :
  headerOk blob = true → parse s blob options = Normal s' →
  s' !! "deviceBattery" =
    match batteryDevices (devicesOf blob options) with
    | [] => s !! "deviceBattery"
    | batteries => Some (VArr (List.map batteryEntry batteries))
    end
  ∧ (∀ d, entryId (batteryEntry d) = VStr (getDeviceString d)
          ∧ getProp (batteryEntry d) "status" = getField d "battery_status")
  ∧ NoDup (List.map getDeviceString (batteryDevices (devicesOf blob options)))
  ∧ List.map getDeviceString (batteryDevices (devicesOf blob options))
      `sublist_of` List.map getDeviceString (validDevices (devicesOf blob options))
  ∧ (∀ d, d ∈ batteryDevices (devicesOf blob options) →
          truthy (getField d "battery_status") = true)
  ∧ (∀ before d after,
       devicesOf blob options = before ++ d :: after →
       validDevice d = true →
       Forall (λ b, validDevice b = false
                    ∨ getDeviceString b ≠ getDeviceString d) before →
       (d ∈ batteryDevices (devicesOf blob options)
        ↔ truthy (getField d "battery_status") = true)
       ∧ ∀ d', d' ∈ batteryDevices (devicesOf blob options) →
               getDeviceString d' = getDeviceString d → d' = d).
Proof.
  intros Hok Hparse.
  destruct (parse_normal_finish s blob options s' Hok Hparse) as (s1 & Hs1 & ->).
  pose proof (fromSessions_frame
                (buckets (decoded blob (effectiveOptions options))) s
                "deviceBattery") as Hframe.
  rewrite Hs1 in Hframe. simpl in Hframe.
  destruct (validDevices_ids (devicesOf blob options)) as [Hnd _].
  split; [| split; [| split; [| split; [| split]]]].
  - unfold finish.
    rewrite decodePedalBalance_frame, decodePrimaryBenefit_frame by done.
    rewrite deviceIds_battery. fold (devicesOf blob options).
    rewrite workoutDetails_frame by done.
    rewrite roundFields_frame by solve_notin.
    rewrite Hframe by (unfold sessionFields; solve_notin). done.
  - intros d. split; [| done]. unfold entryId, batteryEntry, getProp, getField.
    by rewrite lookup_insert_eq.
  - eapply sublist_NoDup; [exact Hnd | apply map_sublist, filter_sublist].
  - apply map_sublist, filter_sublist.
  - by intros d [_ Hd]%elem_of_filter_bool.
  - intros before d after Hdevices Hvalid Hbefore.
    assert (d ∈ validDevices (devicesOf blob options)) as Hd
      by (rewrite Hdevices; by apply validDevices_first).
    split.
    + unfold batteryDevices. rewrite elem_of_filter_bool.
      split; [by intros [_ Hstatus] | by intros Hstatus].
    + intros d' [Hd' _]%elem_of_filter_bool Hid.
      by apply (NoDup_map_eq getDeviceString
                  (validDevices (devicesOf blob options))).
Qed.
End Battery.

Lemma battery_statuses_witness :
  headerOk (fitFile 2) = true
  ∧ summaryOf
      (parse (RT := plainRuntime) (PF := noProfile)
         (DC := replay [("device_info",
                         object [("manufacturer", VStr "garmin");
                                 ("serial_number", VStr "7")]);
                        ("device_info",
                         object [("manufacturer", VStr "garmin");
                                 ("serial_number", VStr "7");
                                 ("battery_status", VStr "low")])])
         ∅ (fitFile 2) VUndef) !! "deviceBattery" = None.
Proof.
  split; [reflexivity |].
  set (script := [("device_info",
                   object [("manufacturer", VStr "garmin");
                           ("serial_number", VStr "7")]);
                  ("device_info",
                   object [("manufacturer", VStr "garmin");
                           ("serial_number", VStr "7");
                           ("battery_status", VStr "low")])]).
  assert (parse (RT := plainRuntime) (PF := noProfile) (DC := replay script)
            ∅ (fitFile 2) VUndef
          = Normal (summaryOf (parse (RT := plainRuntime) (PF := noProfile)
                                 (DC := replay script) ∅ (fitFile 2) VUndef)))
    as Hparse by (by vm_compute).
  destruct (battery_statuses (RT := plainRuntime) (PF := noProfile)
              (DC := replay script) ∅ (fitFile 2) VUndef _ eq_refl Hparse)
    as [Hbattery _].
  rewrite Hbattery. by vm_compute.
Defined.

(** * How a parse ends, and what it leaves *)

Section Outcome.
Import JS.
Context {RT : Runtime} {PF : Profile} {DC : Decoder}.

Lemma logFields_normal (s s' : gmap string value) :
  logFields s = Normal s' ↔ spreadable (getField s "devices") = true ∧ s' = s.
Proof.
  unfold logFields, spreadable.
  destruct (getField s "devices") as [| | | | | | | o |];
    try (split; [by intros [= ->] | by intros [_ ->]]).
  destruct (positive_number (getField o "length")); simpl.
  - split; [done | by intros [? _]].
  - split; [by intros [= ->] | by intros [_ ->]].
Qed.

Lemma finish_devices fitObj bs s :
  finish fitObj bs s !! "devices" =
    match bucket bs "devices" with
    | [] => s !! "devices"
    | devices =>
        Some (VArr (List.map (λ d, VStr (getDeviceString d)) (validDevices devices)))
    end.
Proof.
  unfold finish.
  rewrite decodePedalBalance_frame, decodePrimaryBenefit_frame by done.
  destruct (bucket bs "devices") as [| d devices] eqn:Edevices.
  - simpl. rewrite workoutDetails_frame by done.
    apply roundFields_frame. solve_notin.
  - by apply deviceIds_devices.
Qed.

Lemma fromSessions_normal bs s :
  (∃ s1, fromSessions bs s = Normal s1) ↔
  bucket bs "sessions" = [] ∨ forallb nameIsText (bucket bs "sports") = true.
Proof.
  unfold fromSessions.
  destruct (bucket bs "sessions") as [| session sessions].
  - split; [by left | by exists s].
  - destruct (forallb nameIsText (bucket bs "sports")) eqn:Etext.
    + split; [by right |]. intros _. rewrite sportProfile_text by done.
      by eexists.
    + split; [| by intros [? | ?]].
      intros [s1 Hs1].
      destruct (sportProfile_not_text (bucket bs "sports")
                  (mergeSessions fields (session :: sessions)
                     (sessionTotals (session :: sessions) s)) Etext) as [s' Hs'].
      congruence.
Qed.

(** X8. With a record decoder that returns, a parse returns exactly when
    the header passes the three checks, every sport message has a name that
    is a string or is falsy (the sports are read only when the file has a
    session), and the logged fields can be built: the file has a device
    message, or the [devices] the caller gave is not an object with a
    positive length. In every other case it throws. *)
Theorem parse_returns (s : gmap string value) (blob : list byte)
    (options : value) :
  (∃ s', parse s blob options = Normal s') ↔
    headerOk blob = true
    ∧ (sessionsOf blob options = []
       ∨ forallb nameIsText (sportsOf blob options) = true)
    ∧ (devicesOf blob options ≠ []
       ∨ spreadable (getField s "devices") = true).
Proof.
  destruct (headerOk blob) eqn:Hok.
  - rewrite parse_headerOk by done. unfold summarize.
    pose proof (fromSessions_normal
                  (buckets (decoded blob (effectiveOptions options))) s)
      as Hsessions.
    fold (sessionsOf blob options) (sportsOf blob options) in Hsessions.
    pose proof (fromSessions_frame
                  (buckets (decoded blob (effectiveOptions options))) s
                  "devices") as Hframe.
    destruct (fromSessions _ s) as [s1 | e s1].
    + simpl in Hframe.
      assert (devicesOf blob options ≠ []
              ∨ spreadable (getField s "devices") = true
              ↔ spreadable
                  (getField
                     (finish (fitObj (decoded blob (effectiveOptions options)))
                        (buckets (decoded blob (effectiveOptions options))) s1)
                     "devices") = true) as Hdevices.
      { unfold getField at 2. rewrite finish_devices.
        fold (devicesOf blob options).
        destruct (devicesOf blob options) as [| d devices].
        - rewrite Hframe by (unfold sessionFields; solve_notin).
          split; [by intros [? | ?] | by right].
        - split; [done | by left]. }
      split.
      * intros [s' [Hspread _]%logFields_normal].
        split; [done |]. split; [apply Hsessions; by eexists |].
        by apply Hdevices.
      * intros (_ & _ & Hspread%Hdevices). eexists.
        by apply logFields_normal.
    + split; [by intros [s' ?] |].
      intros (_ & [s' Hs']%Hsessions & _). done.
  - destruct (parse_headerBad s blob options Hok) as (e & _ & ->).
    split; [by intros [s' ?] | by intros [? _]].
Qed.

Lemma insert_keeps (s : gmap string value) (k' : string) (v : value) (k : string) :
  is_Some (s !! k) → is_Some (<[k' := v]> s !! k).
Proof.
  intros Hk. apply lookup_insert_is_Some.
  destruct (decide (k' = k)); [by left | by right].
Qed.

Lemma mergeField_keeps s field v k :
  is_Some (s !! k) → is_Some (mergeField s field v !! k).
Proof. intros. unfold mergeField. case_match; [by apply insert_keeps | done]. Qed.

Lemma mergeSession_keeps table s session k :
  is_Some (s !! k) → is_Some (mergeSession table s session !! k).
Proof.
  unfold mergeSession. revert s.
  induction table as [| [field key] table IH]; intros s Hk; simpl; [done |].
  by apply IH, mergeField_keeps.
Qed.

Lemma mergeSessions_keeps table sessions s k :
  is_Some (s !! k) → is_Some (mergeSessions table sessions s !! k).
Proof.
  unfold mergeSessions. revert s.
  induction sessions as [| session sessions IH]; intros s Hk; simpl; [done |].
  by apply IH, mergeSession_keeps.
Qed.

Lemma sportProfile_keeps sports s k :
  is_Some (s !! k) → is_Some (summaryOf (sportProfile sports s) !! k).
Proof.
  revert s. induction sports as [| sp sports IH]; intros s Hk; simpl; [done |].
  repeat case_match; try done; try by apply IH.
  by apply IH, insert_keeps.
Qed.

Lemma fromSessions_keeps bs s k :
  is_Some (s !! k) → is_Some (summaryOf (fromSessions bs s) !! k).
Proof.
  intros Hk. unfold fromSessions.
  destruct (bucket bs "sessions") as [| session sessions]; [done |].
  apply sportProfile_keeps, mergeSessions_keeps.
  unfold sessionTotals. by do 2 apply insert_keeps.
Qed.

Lemma roundField_keeps s field k :
  is_Some (s !! k) → is_Some (roundField s field !! k).
Proof. intros. unfold roundField. case_match; [by apply insert_keeps | done]. Qed.

Lemma finish_keeps fitObj bs s k :
  k ≠ "pedalBalance" → is_Some (s !! k) → is_Some (finish fitObj bs s !! k).
Proof.
  intros Hne Hk. unfold finish.
  assert (is_Some (roundFields s !! k)) as Hround
    by (unfold roundFields; simpl; by do 3 apply roundField_keeps).
  assert (is_Some (workoutDetails fitObj (roundFields s) !! k)) as Hworkout
    by (unfold workoutDetails; repeat case_match;
        repeat apply insert_keeps; done).
  assert (is_Some (deviceIds (bucket bs "devices")
                     (workoutDetails fitObj (roundFields s)) !! k)) as Hdevices
    by (unfold deviceIds; repeat case_match; repeat apply insert_keeps; done).
  assert (∀ s0, is_Some (s0 !! k) → is_Some (decodePrimaryBenefit s0 !! k))
    as Hbenefit
    by (intros s0 H0; unfold decodePrimaryBenefit; case_match;
        [by apply insert_keeps | done]).
  apply Hbenefit in Hdevices.
  unfold decodePedalBalance. case_match; [by apply insert_keeps |].
  by rewrite lookup_delete_ne.
Qed.

(** X9. Whether it returns or throws, a parse removes no field of the
    summary it was handed, except [pedalBalance]; and a field that the
    summary has afterwards and had not before is one of those that the
    parse writes. *)
Theorem no_field_removed (s : gmap string value) (blob : list byte)
    (options : value) :
  (∀ k, k ≠ "pedalBalance" → is_Some (s !! k) →
        is_Some (summaryOf (parse s blob options) !! k))
  ∧ (∀ k, is_Some (summaryOf (parse s blob options) !! k) →
          is_Some (s !! k) ∨ k ∈ sessionFields ∨ k ∈ finishFields).
Proof.
  split.
  - intros k Hne Hk. destruct (headerOk blob) eqn:Hok.
    + rewrite parse_summary, summarize_summary by done.
      pose proof (fromSessions_keeps
                    (buckets (decoded blob (effectiveOptions options))) s k Hk)
        as Hfrom.
      destruct (fromSessions _ s) as [s1 | e s1]; [| done].
      by apply finish_keeps.
    + by destruct (parse_headerBad s blob options Hok) as (e & _ & ->).
  - intros k Hk.
    destruct (decide (k ∈ sessionFields)) as [| Hs]; [right; by left |].
    destruct (decide (k ∈ finishFields)) as [| Hf]; [right; by right |].
    left. by rewrite parse_frame in Hk.
Qed.

Lemma mathRound_shape (v : value) :
  mathRound v = VNaN ∨ ∃ n : Z, mathRound v = VNum (inject_Z n).
Proof.
  unfold mathRound. destruct (toNumber v) as [x |]; simpl; [| by left].
  right. eexists. by rewrite Qred_inject_Z.
Qed.

(** X10. The shapes of what a returning parse leaves. The pedal balance is
    absent or a string. Each of the three rounded fields, when it is truthy,
    is an integer other than zero. With a session in the file, the distance
    is NaN or a number of tenths, and the total time is NaN or an integer;
    the last two hold as well when the parse throws after the header
    checks. *)
Theorem summary_shapes (s : gmap string value) (blob : list byte)
    (options : value) (s' : gmap string value) :
  headerOk blob = true → parse s blob options = Normal s' →
  (s' !! "pedalBalance" = None ∨ ∃ text, s' !! "pedalBalance" = Some (VStr text))
  ∧ (∀ field, field ∈ roundedFields → truthy (getField s' field) = true →
       ∃ n : Z, s' !! field = Some (VNum (inject_Z n)) ∧ n ≠ 0)
  ∧ (sessionsOf blob options ≠ [] →
     (s' !! "distance" = Some VNaN
      ∨ ∃ (d : Q) (n : Z), s' !! "distance" = Some (VNum d)
                           ∧ (d * 10 == inject_Z n)%Q)
     ∧ (s' !! "totalTime" = Some VNaN
        ∨ ∃ n : Z, s' !! "totalTime" = Some (VNum (inject_Z n)))).
Proof.
  intros Hok Hparse.
  pose proof (parse_totals s blob options "distance" Hok (or_introl eq_refl))
    as Hdistance.
  pose proof (parse_totals s blob options "totalTime" Hok (or_intror eq_refl))
    as Htime.
  rewrite Hparse in Hdistance, Htime. simpl in Hdistance, Htime.
  destruct (parse_normal_finish s blob options s' Hok Hparse) as (s1 & _ & ->).
  split; [| split].
  - destruct (finish_pedalBalance
                (fitObj (decoded blob (effectiveOptions options)))
                (buckets (decoded blob (effectiveOptions options))) s1)
      as (pre & -> & _).
    unfold decodePedalBalance. cbv zeta. destruct (truthy _ && le _ _).
    + right. eexists. by rewrite lookup_insert_eq.
    + left. by rewrite lookup_delete_eq.
  - intros field Hfield. unfold getField. rewrite finish_rounded by done.
    destruct (truthy (default VUndef (s1 !! field))) eqn:Epre.
    + simpl. intros Htruthy.
      destruct (mathRound_shape (default VUndef (s1 !! field))) as [E | [n E]];
        rewrite E in Htruthy |- *; [done |].
      exists n. split; [done |]. intros ->. done.
    + intros Htruthy. by rewrite Htruthy in Epre.
  - intros Hsome.
    destruct (sessionsOf blob options) as [| session sessions]; [done |].
    rewrite Hdistance, Htime. unfold sessionTotals.
    rewrite lookup_insert_eq, lookup_insert_ne, lookup_insert_eq by done.
    split.
    + unfold parseFloatToFixed1. case_match; try by left.
      right. destruct (roundTenth_spec q) as [[n Hn] _].
      exists (Qred (roundTenth q)), n. split; [done |].
      rewrite Qred_correct, Hn. field.
    + destruct (mathRound_shape (sumBy (session :: sessions) "total_elapsed_time"))
        as [-> | [n ->]]; [by left | right; by exists n].
Qed.

(** X11. A summary that a parse has filled is not fit for a second parse.
    Whatever the second file holds, if the second parse returns, the pedal
    balance that the first one wrote is removed (it is a string, which the
    second parse reads as the raw object), and the primary benefit that the
    first one decoded to a name of the table becomes undefined (the name is
    used as an index of the table). *)
Theorem parse_again (s0 s1 s2 : gmap string value) (blob0 blob : list byte)
    (options0 options : value) :
  headerOk blob0 = true → parse s0 blob0 options0 = Normal s1 →
  headerOk blob = true → parse s1 blob options = Normal s2 →
  (is_Some (s1 !! "pedalBalance") → s2 !! "pedalBalance" = None)
  ∧ (∀ name, name ∈ primaryBenefits →
             s1 !! "primaryBenefit" = Some (VStr name) →
             s2 !! "primaryBenefit" = Some VUndef).
Proof.
  intros Hok0 Hparse0 Hok Hparse.
  destruct (parse_normal s1 blob options s2 Hok Hparse) as (pre & -> & Hmerged).
  split.
  - intros Hbalance.
    destruct (parse_normal_finish s0 blob0 options0 s1 Hok0 Hparse0)
      as (pre0 & _ & ->).
    destruct (finish_pedalBalance
                (fitObj (decoded blob0 (effectiveOptions options0)))
                (buckets (decoded blob0 (effectiveOptions options0))) pre0)
      as (pre1 & Efinish & _).
    destruct (finish_pedalBalance
                (fitObj (decoded blob (effectiveOptions options)))
                (buckets (decoded blob (effectiveOptions options))) pre)
      as (pre2 & -> & Epre2).
    specialize (Hmerged "pedalBalance" (One "left_right_balance")).
    rewrite Hmerged in Epre2 by (unfold fields; solve_in).
    rewrite Efinish in Hbalance, Epre2.
    unfold decodePedalBalance in Hbalance, Epre2.
    destruct (truthy (getProp (getField pre1 "pedalBalance") "right")
              && le (getProp (getField pre1 "pedalBalance") "value") (VNum 10000)).
    + rewrite lookup_insert_eq in Epre2. unfold merged in Epre2.
      simpl in Epre2.
      apply decodePedalBalance_none. left. unfold getField. by rewrite Epre2.
    + rewrite lookup_delete_eq in Hbalance. by destruct Hbalance.
  - intros name Hname Hbenefit.
    specialize (Hmerged "primaryBenefit" (One "primary_benefit")).
    rewrite Hbenefit in Hmerged.
    assert (truthy (VStr name) = true ∧ elementAt primaryBenefits (VStr name) = VUndef)
      as [Htruthy Helement].
    { unfold primaryBenefits in Hname.
      repeat (apply elem_of_cons in Hname as [-> | Hname]; [by vm_compute |]).
      by apply elem_of_nil in Hname. }
    unfold merged in Hmerged. simpl default in Hmerged.
    rewrite Htruthy in Hmerged.
    rewrite finish_primaryBenefit. unfold getField.
    rewrite Hmerged by (unfold fields; solve_in). simpl default.
    by rewrite Htruthy, Helement.
Qed.
End Outcome.

Lemma summary_shapes_witness :
  headerOk (fitFile 1) = true
  ∧ ∃ n : Z,
      summaryOf
        (parse (RT := plainRuntime) (PF := noProfile)
           (DC := replay [("session", object [("total_distance", VNum 12345);
                                              ("total_elapsed_time", VNum (7 # 2))])])
           (object [("trainingLoad", VNum (5 # 2))]) (fitFile 1) VUndef)
        !! "trainingLoad" = Some (VNum (inject_Z n))
      ∧ n ≠ 0.
Proof.
  split; [reflexivity |].
  set (script := [("session", object [("total_distance", VNum 12345);
                                      ("total_elapsed_time", VNum (7 # 2))])]).
  assert (parse (RT := plainRuntime) (PF := noProfile) (DC := replay script)
            (object [("trainingLoad", VNum (5 # 2))]) (fitFile 1) VUndef
          = Normal (summaryOf
                      (parse (RT := plainRuntime) (PF := noProfile)
                         (DC := replay script)
                         (object [("trainingLoad", VNum (5 # 2))])
                         (fitFile 1) VUndef)))
    as Hparse by (by vm_compute).
  destruct (summary_shapes (RT := plainRuntime) (PF := noProfile)
              (DC := replay script) _ (fitFile 1) VUndef _ eq_refl Hparse)
    as (_ & Hrounded & _).
  apply Hrounded; [unfold roundedFields; solve_in | by vm_compute].
Defined.

Lemma parse_again_witness :
  headerOk (fitFile 0) = true
  ∧ summaryOf
      (parse (RT := plainRuntime) (PF := noProfile) (DC := replay [])
         (object [("primaryBenefit", VStr "Tempo")]) (fitFile 0) VUndef)
      !! "primaryBenefit" = Some VUndef.
Proof.
  split; [reflexivity |].
  assert (parse (RT := plainRuntime) (PF := noProfile) (DC := replay [])
            (object [("primaryBenefit", VNum 3)]) (fitFile 0) VUndef
          = Normal (object [("primaryBenefit", VStr "Tempo")])) as Hfirst
    by (by vm_compute).
  assert (parse (RT := plainRuntime) (PF := noProfile) (DC := replay [])
            (object [("primaryBenefit", VStr "Tempo")]) (fitFile 0) VUndef
          = Normal (summaryOf
                      (parse (RT := plainRuntime) (PF := noProfile)
                         (DC := replay [])
                         (object [("primaryBenefit", VStr "Tempo")])
                         (fitFile 0) VUndef))) as Hsecond
    by (by vm_compute).
  destruct (parse_again (RT := plainRuntime) (PF := noProfile) (DC := replay [])
              _ _ _ (fitFile 0) (fitFile 0) VUndef VUndef
              eq_refl Hfirst eq_refl Hsecond) as [_ Hbenefit].
  apply (Hbenefit "Tempo"); [unfold primaryBenefits; solve_in | by vm_compute].
Defined.

(** * The queries of the matcher *)

Section Queries.
Import JS.
Context {RT : Runtime} {DB : Database}.

Lemma find_app_some {A} (p : A → bool) (l1 l2 : list A) (a : A) :
  List.find p (l1 ++ l2) = Some a →
  List.find p l1 = Some a ∨ (List.find p l1 = None ∧ List.find p l2 = Some a).
Proof.
  induction l1 as [| b l1 IH]; simpl; [by right |].
  destruct (p b); [by left | done].
Qed.

Lemma find_none_all {A} (p : A → bool) (l : list A) :
  List.find p l = None → Forall (λ b, p b = false) l.
Proof.
  intros Hnone. apply Forall_forall. intros b Hb%list_elem_of_In.
  by apply (find_none p l Hnone).
Qed.

Lemma selectMatching_some (activity : gmap string value)
    (activities : list (gmap string value)) (a : gmap string value) :
  selectMatching activity activities = VObj a ↔
  List.find (withinTolerance activity) activities = Some a.
Proof.
  unfold selectMatching. destruct activities as [| b l]; [done |].
  destruct (List.find _ _); split; congruence.
Qed.

Lemma substring_prefix (part after : string) :
  substring 0 (String.length part) (part +:+ after) = part.
Proof.
  induction part as [| c part IH]; simpl.
  - destruct after; reflexivity.
  - f_equal. exact IH.
Qed.

Lemma substring_infix (before part after : string) :
  substring (String.length before) (String.length part)
    (before +:+ part +:+ after) = part.
Proof.
  induction before as [| c before IH]; simpl; [| done].
  exact (substring_prefix part after).
Qed.

Lemma includes_infix (before part after : string) :
  part ≠ "" → includes (before +:+ part +:+ after) part = true.
Proof.
  intros Hpart. unfold includes.
  destruct (index 0 part _) eqn:Eindex; [done |].
  destruct (index_correct3 0 (String.length before) _ _ Eindex Hpart (Nat.le_0_l _)).
  apply substring_infix.
Qed.

Lemma toLowerCase_app (a b : string) :
  toLowerCase (a +:+ b) = toLowerCase a +:+ toLowerCase b.
Proof.
  unfold toLowerCase. induction a as [| c a IH]; simpl; [done |].
  by rewrite IH.
Qed.

(** X12. A summary that the matcher returns is within the tolerance and
    comes from a collection that was asked for. With no source, or the
    source "any", it is a garmin summary, or a wahoo summary when no garmin
    summary is within the tolerance. With a given source it comes from that
    collection: from the first query, or from the second one, which is made
    only when the first gave nothing and the device of the activity contains
    the name of the source, in any case of its letters. *)
Theorem matched_candidate (user activity : gmap string value)
    (source : option Source) (a : gmap string value) :
  getMatchingActivity user activity source = VObj a →
  withinTolerance activity a = true
  ∧ match default any source with
    | any =>
        a ∈ queried user activity 0 "garmin"
        ∨ (Forall (λ b, withinTolerance activity b = false)
             (queried user activity 0 "garmin")
           ∧ a ∈ queried user activity 1 "wahoo")
    | given =>
        a ∈ queried user activity 0 (sourceName given)
        ∨ (queried user activity 0 (sourceName given) = []
           ∧ deviceNames activity given = true
           ∧ a ∈ queried user activity 1 (sourceName given))
    end
  ∧ (∀ given before name after,
       toLowerCase name = sourceName given →
       getField activity "device" = VStr (before +:+ name +:+ after) →
       deviceNames activity given = true).
Proof.
  intros Hmatch. unfold getMatchingActivity in Hmatch.
  destruct (candidates user activity (default any source)) as [found |] eqn:Efound;
    [| done].
  apply selectMatching_some in Hmatch.
  pose proof (find_some _ _ Hmatch) as [Hin%list_elem_of_In Hwithin].
  split; [done |]. split.
  - unfold candidates in Efound. fold (queried user activity) in Efound.
    unfold deviceNames.
    assert (∀ given,
              match queried user activity 0 (sourceName given) with
              | [] =>
                  match getField activity "device" with
                  | VUndef | VNull => Some []
                  | VStr device =>
                      if includes (toLowerCase device) (sourceName given)
                      then Some (queried user activity 1 (sourceName given))
                      else Some []
                  | _ => None
                  end
              | activities => Some activities
              end = Some found →
              a ∈ queried user activity 0 (sourceName given)
              ∨ (queried user activity 0 (sourceName given) = []
                 ∧ match getField activity "device" with
                   | VStr device => includes (toLowerCase device) (sourceName given)
                   | _ => false
                   end = true
                 ∧ a ∈ queried user activity 1 (sourceName given))) as Hgiven.
    { intros given Hcase.
      destruct (queried user activity 0 (sourceName given)) as [| b l];
        [| left; by simplify_eq].
      right. split; [done |].
      destruct (getField activity "device") as [| | | | | device | | |];
        simplify_eq; try by apply elem_of_nil in Hin.
      destruct (includes (toLowerCase device) (sourceName given));
        by simplify_eq. }
    destruct (default any source); [| by apply Hgiven | by apply Hgiven].
    simplify_eq.
    apply find_app_some in Hmatch as [Hfirst | [Hnone Hsecond]].
    + left. by apply find_some in Hfirst as [?%list_elem_of_In _].
    + right. split; [by apply find_none_all |].
      by apply find_some in Hsecond as [?%list_elem_of_In _].
  - intros given before name after Hname Hdevice.
    unfold deviceNames. rewrite Hdevice, !toLowerCase_app, Hname.
    apply includes_infix. by destruct given.
Qed.
End Queries.

Lemma matched_candidate_witness :
  getMatchingActivity (RT := plainRuntime)
    (DB := garminHoldsLater [lasting 3620])
    ∅ (object [("totalTime", VNum 3600); ("device", VStr "Garmin Edge 530")])
    (Some garmin) = VObj (lasting 3620)
  ∧ deviceNames
      (object [("totalTime", VNum 3600); ("device", VStr "Garmin Edge 530")])
      garmin = true.
Proof.
  assert (getMatchingActivity (RT := plainRuntime)
            (DB := garminHoldsLater [lasting 3620])
            ∅ (object [("totalTime", VNum 3600);
                       ("device", VStr "Garmin Edge 530")])
            (Some garmin) = VObj (lasting 3620)) as Hmatch by (by vm_compute).
  split; [done |].
  destruct (matched_candidate (RT := plainRuntime)
              (DB := garminHoldsLater [lasting 3620]) _ _ _ _ Hmatch)
    as (_ & [Hfirst | (_ & Hnames & _)] & _); [| done].
  by apply elem_of_nil in Hfirst.
Defined.

(** * getProcessedActivities *)

Section ProcessedFacts.
Import JS.
Context {CL : Collections}.

(** X13. The search for processed activities answers only when it is given
    no date filter, and then with what the query on the user alone gives.
    With a start or an end date the query is made with the date clauses,
    but the text of the clauses for the log calls toISOString on the name of
    the field, which is a string: the call throws, the catch of line 347
    logs the error, and the caller gets undefined. *)
Theorem processed_activities_filter (user : gmap string value) (source : string)
    (options : value) :
  (is_Some (getProcessedActivities user source options) ↔
     isNil options = false
     ∧ truthy (getProp options "dateFrom") = false
     ∧ truthy (getProp options "dateTo") = false)
  ∧ (∀ result, getProcessedActivities user source options = Some result →
       result = searchWhere source [[VStr "userId"; VStr "=="; getField user "id"]]).
Proof.
  unfold getProcessedActivities, whereOf.
  destruct (isNil options); simpl.
  - split; [| done]. split; [by intros [? ?] | by intros [? _]].
  - destruct (truthy (getProp options "dateFrom"));
      destruct (truthy (getProp options "dateTo")); simpl.
    1-3: split; [split; [by intros [? ?] | by intros (_ & ? & ?)] | done].
    split; [split; [done | by eexists] | by intros result [= <-]].
Qed.
End ProcessedFacts.

(** * The battery tracker *)

Section Tracker.
Import GearWear.

Lemma find_id_some (i : string) (devices : list trackedDevice) :
  i ∈ trackedIds devices →
  ∃ d, List.find (λ d, String.eqb (batteryId d) i) devices = Some d
       ∧ batteryId d = i.
Proof.
  induction devices as [| x devices IH]; simpl.
  - by intros ?%elem_of_nil.
  - destruct (String.eqb (batteryId x) i) eqn:Ex.
    + intros _. exists x. split; [done | by apply String.eqb_eq].
    + intros [-> | Hin]%elem_of_cons; [by rewrite String.eqb_refl in Ex |].
      by apply IH.
Qed.

Lemma find_id_none (i : string) (devices : list trackedDevice) :
  i ∉ trackedIds devices →
  List.find (λ d, String.eqb (batteryId d) i) devices = None.
Proof.
  intros Hnot.
  destruct (List.find _ devices) as [d |] eqn:Efind; [| done].
  apply find_some in Efind as [Hin%list_elem_of_In Hid%String.eqb_eq].
  destruct Hnot. apply elem_of_map. by exists d.
Qed.

Lemma setExisting_ids (i status : string) (date : value)
    (devices : list trackedDevice) :
  trackedIds (setExisting i status date devices) = trackedIds devices.
Proof.
  induction devices as [| x devices IH]; simpl; [done |].
  destruct (String.eqb (batteryId x) i); simpl; [done | by rewrite IH].
Qed.

Lemma setExisting_elem (i status : string) (date : value)
    (devices : list trackedDevice) (d : trackedDevice) :
  d ∈ setExisting i status date devices →
  d = trackedAs date (i, status) ∨ d ∈ devices.
Proof.
  induction devices as [| x devices IH]; simpl; [by right |].
  destruct (String.eqb (batteryId x) i) eqn:Ex.
  - apply String.eqb_eq in Ex.
    intros [-> | Hin]%elem_of_cons; [left; by rewrite Ex | right; by right].
  - intros [-> | Hin]%elem_of_cons; [right; by left |].
    destruct (IH Hin); [by left | right; by right].
Qed.

Lemma setExisting_new (i status : string) (date : value)
    (devices : list trackedDevice) :
  i ∈ trackedIds devices →
  trackedAs date (i, status) ∈ setExisting i status date devices.
Proof.
  induction devices as [| x devices IH]; simpl.
  - by intros ?%elem_of_nil.
  - destruct (String.eqb (batteryId x) i) eqn:Ex.
    + apply String.eqb_eq in Ex. intros _. rewrite Ex. by left.
    + intros [-> | Hin]%elem_of_cons; [by rewrite String.eqb_refl in Ex |].
      right. by apply IH.
Qed.

Lemma setExisting_other (i status : string) (date : value)
    (devices : list trackedDevice) (d : trackedDevice) :
  d ∈ devices → batteryId d ≠ i → d ∈ setExisting i status date devices.
Proof.
  intros Hin Hne. induction devices as [| x devices IH]; simpl; [done |].
  apply elem_of_cons in Hin as [-> | Hin].
  - apply String.eqb_neq in Hne. rewrite Hne. by left.
  - destruct (String.eqb (batteryId x) i); right; [done | by apply IH].
Qed.

Lemma trackEntry_ids (date : value) (st : list trackedDevice * list deviceBattery)
    (e : deviceBattery) :
  trackedIds (trackEntry date st e).1 =
    if decide (e.1 ∈ trackedIds st.1) then trackedIds st.1
    else trackedIds st.1 ++ [e.1].
Proof.
  unfold trackEntry. simpl. case_decide as Hin.
  - destruct (find_id_some _ _ Hin) as (d & -> & _). apply setExisting_ids.
  - rewrite find_id_none by done. unfold trackedIds. by rewrite List.map_app.
Qed.

Lemma trackEntry_new (date : value) (st : list trackedDevice * list deviceBattery)
    (e : deviceBattery) :
  trackedAs date e ∈ (trackEntry date st e).1.
Proof.
  destruct e as [i status]. unfold trackEntry. simpl.
  destruct (decide (i ∈ trackedIds st.1)) as [Hin | Hnot].
  - destruct (find_id_some _ _ Hin) as (d & -> & _). by apply setExisting_new.
  - rewrite find_id_none by done. apply elem_of_app. right. by left.
Qed.

Lemma trackEntry_other (date : value) (st : list trackedDevice * list deviceBattery)
    (e : deviceBattery) (d : trackedDevice) :
  d ∈ st.1 → batteryId d ≠ e.1 → d ∈ (trackEntry date st e).1.
Proof.
  intros Hin Hne. unfold trackEntry. simpl.
  destruct (List.find _ st.1); [by apply setExisting_other |].
  apply elem_of_app. by left.
Qed.

Lemma trackEntry_elem (date : value) (st : list trackedDevice * list deviceBattery)
    (e : deviceBattery) (d : trackedDevice) :
  d ∈ (trackEntry date st e).1 → d = trackedAs date e ∨ d ∈ st.1.
Proof.
  destruct e as [i status]. unfold trackEntry. simpl.
  destruct (List.find _ st.1).
  - apply setExisting_elem.
  - intros [Hin | ->%list_elem_of_singleton]%elem_of_app; [by right | by left].
Qed.

Lemma trackActivities_dated (st : list trackedDevice * list deviceBattery)
    (matched : list (value * list deviceBattery)) :
  trackActivities st matched =
    fold_left (λ st x, trackEntry x.1 st x.2) (datedEntries matched) st.
Proof.
  unfold trackActivities, datedEntries. revert st.
  induction matched as [| [date entries] matched IH]; intros st; simpl; [done |].
  rewrite fold_left_app, IH. f_equal.
  unfold trackEntries. clear IH. revert st.
  induction entries as [| e entries IH]; intros st; simpl; [done | apply IH].
Qed.

Lemma tracked_step (l : list (value * deviceBattery)) (x : value * deviceBattery)
    (st : list trackedDevice * list deviceBattery) :
  fold_left (λ st x, trackEntry x.1 st x.2) (l ++ [x]) st =
    trackEntry x.1 (fold_left (λ st x, trackEntry x.1 st x.2) l st) x.2.
Proof. by rewrite fold_left_app. Qed.

Lemma tracked_ids (devices : list trackedDevice) (l : list (value * deviceBattery))
    (i : string) :
  i ∈ trackedIds (fold_left (λ st x, trackEntry x.1 st x.2) l (devices, [])).1 ↔
  i ∈ trackedIds devices ∨ i ∈ l.*2.*1.
Proof.
  induction l as [| x l IH] using rev_ind; simpl.
  - split; [by left | by intros [? | ?%elem_of_nil]].
  - rewrite tracked_step, trackEntry_ids, !fmap_app. simpl.
    rewrite elem_of_app, list_elem_of_singleton.
    case_decide as Hin; [| rewrite elem_of_app, list_elem_of_singleton];
      rewrite IH; [| tauto].
    split; [tauto |]. intros [? | [? | ->]]; [tauto | tauto |].
    by apply IH.
Qed.

Lemma tracked_NoDup (devices : list trackedDevice) (l : list (value * deviceBattery)) :
  NoDup (trackedIds devices) →
  NoDup (trackedIds (fold_left (λ st x, trackEntry x.1 st x.2) l (devices, [])).1).
Proof.
  intros Hnd. induction l as [| x l IH] using rev_ind; simpl; [done |].
  rewrite tracked_step, trackEntry_ids. case_decide as Hin; [done |].
  apply NoDup_app. split; [done |]. split; [| apply NoDup_singleton].
  by intros i Hi ->%list_elem_of_singleton.
Qed.

Lemma tracked_other (l : list (value * deviceBattery))
    (st : list trackedDevice * list deviceBattery) (d : trackedDevice) :
  d ∈ st.1 → batteryId d ∉ l.*2.*1 →
  d ∈ (fold_left (λ st x, trackEntry x.1 st x.2) l st).1.
Proof.
  intros Hin. induction l as [| x l IH] using rev_ind; simpl; [done |].
  rewrite tracked_step, !fmap_app. simpl. intros Hnot.
  apply not_elem_of_app in Hnot as [Hl Hx].
  apply trackEntry_other; [by apply IH |].
  intros Heq. apply Hx. rewrite Heq. by left.
Qed.

Lemma tracked_low (l : list (value * deviceBattery))
    (st : list trackedDevice * list deviceBattery) :
  ∃ reported,
    (fold_left (λ st x, trackEntry x.1 st x.2) l st).2 = st.2 ++ reported
    ∧ reported `sublist_of` l.*2
    ∧ Forall (λ e, isLow e.2 = true) reported.
Proof.
  induction l as [| x l IH] using rev_ind; simpl.
  - exists []. by rewrite app_nil_r.
  - destruct IH as (reported & Hlow & Hsub & Hall).
    rewrite tracked_step, fmap_app. unfold trackEntry at 1. simpl.
    destruct (isLow x.2.2 && _) eqn:Ereport.
    + exists (reported ++ [x.2]). rewrite Hlow, <- app_assoc.
      split; [done |]. split; [by apply sublist_app |].
      apply Forall_app. split; [done |]. constructor; [| done].
      by apply andb_prop in Ereport as [? _].
    + exists reported. split; [done |]. split; [| done].
      by apply sublist_inserts_r.
Qed.

Lemma tracked_reported (devices : list trackedDevice)
    (l : list (value * deviceBattery)) (d : trackedDevice) :
  d ∈ (fold_left (λ st x, trackEntry x.1 st x.2) l (devices, [])).1 →
  isLow (batteryStatus d) = true →
  (batteryId d, batteryStatus d)
    ∈ (fold_left (λ st x, trackEntry x.1 st x.2) l (devices, [])).2
  ∨ ∃ d0, d0 ∈ devices ∧ batteryId d0 = batteryId d
          ∧ batteryStatus d0 = batteryStatus d.
Proof.
  revert d. induction l as [| [date e] l IH] using rev_ind; simpl; intros d Hd Hlow.
  - right. by exists d.
  - rewrite tracked_step in Hd |- *. simpl in Hd |- *.
    set (st := fold_left (λ st x, trackEntry x.1 st x.2) l (devices, [])) in *.
    assert (∀ e', e' ∈ st.2 → e' ∈ (trackEntry date st e).2) as Hkept.
    { intros e' He'. unfold trackEntry. simpl.
      destruct (isLow e.2 && _); [apply elem_of_app; by left | done]. }
    apply trackEntry_elem in Hd as [-> | Hd].
    + simpl in Hlow |- *. unfold trackEntry. simpl. rewrite Hlow. simpl.
      destruct (List.find _ st.1) as [existing |] eqn:Efind.
      * apply find_some in Efind as [Hin%list_elem_of_In Hid%String.eqb_eq].
        destruct (String.eqb (batteryStatus existing) e.2) eqn:Estatus; simpl.
        -- apply String.eqb_eq in Estatus.
           rewrite <- Hid, <- Estatus. rewrite <- Estatus in Hlow.
           destruct (IH existing Hin Hlow) as [Hreported | Hbefore];
             [by left | by right].
        -- left. apply elem_of_app. right. destruct e. by left.
      * left. apply elem_of_app. right. destruct e. by left.
    + destruct (IH d Hd Hlow) as [Hreported | Hbefore]; [| by right].
      left. by apply Hkept.
Qed.

(** X14. The tracker after the loops over the matched activities and
    their battery statuses. Its identifiers are those it had and those of
    the statuses read, and none is there twice if none was. A device that no
    status names is left as it was. For each identifier the last status
    read wins: the device holds it, with the date of its activity. The
    list of low batteries is made of statuses read, in the order read, each
    "low" or "critical"; and every device that ends with such a status is in
    that list with it, unless the tracker held the device with that status
    before. *)
Theorem tracker_updated (devices : list trackedDevice)
    (matched : list (value * list deviceBattery)) :
  let result := trackActivities (devices, []) matched in
  (NoDup (trackedIds devices) → NoDup (trackedIds result.1))
  ∧ (∀ i, i ∈ trackedIds result.1 ↔
          i ∈ trackedIds devices ∨ i ∈ (datedEntries matched).*2.*1)
  ∧ (∀ d, d ∈ devices → batteryId d ∉ (datedEntries matched).*2.*1 →
          d ∈ result.1)
  ∧ (∀ before date e after,
       datedEntries matched = before ++ (date, e) :: after →
       e.1 ∉ after.*2.*1 → trackedAs date e ∈ result.1)
  ∧ result.2 `sublist_of` (datedEntries matched).*2
  ∧ Forall (λ e, isLow e.2 = true) result.2
  ∧ (∀ d, d ∈ result.1 → isLow (batteryStatus d) = true →
          (batteryId d, batteryStatus d) ∈ result.2
          ∨ ∃ d0, d0 ∈ devices ∧ batteryId d0 = batteryId d
                  ∧ batteryStatus d0 = batteryStatus d).
Proof.
  intros result. unfold result. rewrite trackActivities_dated.
  split; [apply tracked_NoDup |].
  split; [apply tracked_ids |].
  split; [intros d; apply (tracked_other _ (devices, [])) |].
  split.
  { intros before date e after -> Hlast.
    rewrite fold_left_app. simpl.
    apply tracked_other; [apply trackEntry_new | done]. }
  split; [| split; [| apply tracked_reported]];
    by destruct (tracked_low (datedEntries matched) (devices, []))
      as (reported & -> & Hsub & Hlow).
Qed.
End Tracker.

(** * The order of the saved tracker *)

Section Sorted.
Import GearWear.

Lemma leb_trans (s1 s2 s3 : string) :
  String.leb s1 s2 = true → String.leb s2 s3 = true → String.leb s1 s3 = true.
Proof.
  unfold String.leb. revert s2 s3.
  induction s1 as [| a s1 IH]; intros [| b s2] [| c s3]; simpl; try done.
  unfold Ascii.compare.
  destruct (N.compare_spec (N_of_ascii a) (N_of_ascii b)),
    (N.compare_spec (N_of_ascii b) (N_of_ascii c)),
    (N.compare_spec (N_of_ascii a) (N_of_ascii c));
    try done; try lia; apply IH.
Qed.

Lemma insertById_perm (d : trackedDevice) (l : list trackedDevice) :
  insertById d l ≡ₚ d :: l.
Proof.
  induction l as [| x l IH]; simpl; [done |].
  destruct (String.leb (batteryId d) (batteryId x)); [done |].
  rewrite IH. apply Permutation_swap.
Qed.

Lemma sortById_perm (devices : list trackedDevice) :
  sortById devices ≡ₚ devices.
Proof.
  induction devices as [| d devices IH]; simpl; [done |].
  by rewrite insertById_perm, IH.
Qed.

Lemma insertById_sorted (d : trackedDevice) (l : list trackedDevice) :
  StronglySorted idOrder l → StronglySorted idOrder (insertById d l).
Proof.
  induction 1 as [| x l Hsorted IH Hall]; simpl.
  - repeat constructor.
  - destruct (String.leb (batteryId d) (batteryId x)) eqn:Eorder.
    + constructor; [by constructor |]. constructor; [done |].
      eapply Forall_impl; [exact Hall |].
      intros y Hy. by apply (leb_trans _ (batteryId x)).
    + constructor; [done |]. rewrite insertById_perm. constructor; [| done].
      unfold idOrder. destruct (String.leb_total (batteryId x) (batteryId d));
        [done | congruence].
Qed.

Lemma sortById_sorted (devices : list trackedDevice) :
  StronglySorted idOrder (sortById devices).
Proof.
  induction devices as [| d devices IH]; simpl; [constructor |].
  by apply insertById_sorted.
Qed.

Lemma sorted_lookup (l : list trackedDevice) :
  StronglySorted idOrder l →
  ∀ i j a b, (i < j)%nat → l !! i = Some a → l !! j = Some b → idOrder a b.
Proof.
  induction 1 as [| x l Hl IH Hall]; intros i j a b Hij Ha Hb; [done |].
  destruct j as [| j]; [lia |]. simpl in Hb.
  destruct i as [| i]; simpl in Ha.
  - simplify_eq. rewrite Forall_forall in Hall. apply Hall.
    by apply (list_elem_of_lookup_2 _ j).
  - apply (IH i j); [lia | done | done].
Qed.

(** X15. The devices that the update saves are those of the tracker after
    the loops, in the order of the code units of their identifiers. If the
    tracker held no identifier twice, the saved list holds none twice
    either, so that the identifiers go strictly up; and a list that is in
    order already is saved as it is. *)
Theorem saved_devices_sorted (devices : list trackedDevice)
    (matched : list (value * list deviceBattery)) :
  StronglySorted idOrder (updatedDevices devices matched)
  ∧ updatedDevices devices matched ≡ₚ (trackActivities (devices, []) matched).1
  ∧ (∀ i, i ∈ trackedIds (updatedDevices devices matched) ↔
          i ∈ trackedIds devices ∨ i ∈ (datedEntries matched).*2.*1)
  ∧ (NoDup (trackedIds devices) →
     NoDup (trackedIds (updatedDevices devices matched))
     ∧ ∀ i j a b, (i < j)%nat →
         updatedDevices devices matched !! i = Some a →
         updatedDevices devices matched !! j = Some b →
         idOrder a b ∧ batteryId a ≠ batteryId b)
  ∧ (∀ sorted, StronglySorted idOrder sorted → sortById sorted = sorted).
Proof.
  unfold updatedDevices.
  pose proof (sortById_perm (trackActivities (devices, []) matched).1) as Hperm.
  pose proof (sortById_sorted (trackActivities (devices, []) matched).1)
    as Hsorted.
  assert (trackedIds (sortById (trackActivities (devices, []) matched).1)
          ≡ₚ trackedIds (trackActivities (devices, []) matched).1) as Hids
    by (unfold trackedIds; by rewrite Hperm).
  split; [done |]. split; [done |]. split; [| split].
  - intros i. rewrite Hids, trackActivities_dated. apply tracked_ids.
  - intros Hnd.
    assert (NoDup (trackedIds (sortById (trackActivities (devices, []) matched).1)))
      as Hnd'.
    { rewrite Hids, trackActivities_dated. by apply tracked_NoDup. }
    split; [done |]. intros i j a b Hij Ha Hb.
    split.
    + by apply (sorted_lookup _ Hsorted i j).
    + intros Heq.
      assert (i = j); [| lia].
      apply (NoDup_lookup _ i j (batteryId a) Hnd'); unfold trackedIds.
      * change (List.map batteryId ?l) with (batteryId <$> l).
        by rewrite list_lookup_fmap, Ha.
      * change (List.map batteryId ?l) with (batteryId <$> l).
        by rewrite list_lookup_fmap, Hb, Heq.
  - intros sorted. induction 1 as [| x l Hl IH Hall]; simpl; [done |].
    rewrite IH. destruct Hall as [| y l Hxy Hall]; simpl; [done |].
    unfold idOrder in Hxy. by rewrite Hxy.
Qed.
End Sorted.

(** * The data of the archive *)

Section Archive.
Import JS GDPR.

Lemma removeTokens_other (u : gmap string value) (k k' : string) :
  k' ≠ k → removeTokens u k !! k' = u !! k'.
Proof.
  intros Hne. unfold removeTokens.
  destruct (u !! k) as [[| | | | | | | o |] |]; try done.
  by rewrite lookup_insert_ne.
Qed.

Lemma removeTokens_profile (u : gmap string value) (k : string) :
  removeTokens u k !! k =
    match u !! k with
    | Some (VObj o) => Some (VObj (delete "tokens" o))
    | other => other
    end.
Proof.
  unfold removeTokens.
  destruct (u !! k) as [[| | | | | | | o |] |] eqn:Ek; try done.
  by rewrite lookup_insert_eq.
Qed.

Lemma sanitized_profile (u0 : gmap string value) (k : string) :
  k ∈ tokenProfiles →
  removeTokens
    (removeTokens
       (removeTokens (delete "urlToken" (delete "stravaTokens" u0)) "garmin")
       "wahoo")
    "spotify" !! k =
  match u0 !! k with
  | Some (VObj o) => Some (VObj (delete "tokens" o))
  | other => other
  end.
Proof.
  unfold tokenProfiles. intros Hk.
  repeat (apply elem_of_cons in Hk as [-> | Hk]);
    [| | | by apply elem_of_nil in Hk];
    rewrite ?removeTokens_other by done; rewrite removeTokens_profile;
    rewrite ?removeTokens_other by done;
    by rewrite !lookup_delete_ne by done.
Qed.

Lemma sanitized_other (u0 : gmap string value) (k : string) :
  k ∉ tokenProfiles →
  removeTokens
    (removeTokens
       (removeTokens (delete "urlToken" (delete "stravaTokens" u0)) "garmin")
       "wahoo")
    "spotify" !! k =
  delete "urlToken" (delete "stravaTokens" u0) !! k.
Proof.
  unfold tokenProfiles. intros Hk. split_notin Hk.
  by rewrite !removeTokens_other by done.
Qed.

Lemma kept_pair (k1 k2 : string) (v1 v2 : value) :
  k1 ≠ k2 → kept (VObj (<[k1 := v1]> (<[k2 := v2]> ∅))) = true.
Proof.
  intros Hne. unfold kept, ownValues.
  rewrite map_size_insert_None by (by rewrite lookup_insert_ne).
  apply orb_true_r.
Qed.

Lemma collect_composite (a : Answers) (k : string) :
  k ∈ compositeEntries → ∃ v, collect a !! k = Some v ∧ kept v = true.
Proof.
  unfold compositeEntries. intros Hk.
  repeat (apply elem_of_cons in Hk as [-> | Hk]);
    [| | | by apply elem_of_nil in Hk];
    eexists; (split; [unfold collect;
                      repeat (rewrite lookup_insert_ne by done);
                      apply lookup_insert_eq | by apply kept_pair]).
Qed.

(** X16. The data of the archive. Removing the sensitive data throws
    exactly when the user record is null or undefined. Otherwise, in the
    data that is written: a user record that is an object has no
    stravaTokens and no urlToken, its garmin, wahoo and spotify profiles have
    no tokens, and nothing else of it is changed; no entry is a truthy value
    without values of its own (an empty array, an empty object); every other
    entry of the database is written as it is; and the three entries made of
    two answers (FitActivities, Automations, GearWear) are always written,
    also when both answers are empty. *)
Theorem archive_data (a : Answers) :
  (archiveData a = None ↔ isNil (userData a) = true)
  ∧ ∀ data, archiveData a = Some data →
      (∀ u, data !! "User" = Some (VObj u) →
         u !! "stravaTokens" = None ∧ u !! "urlToken" = None
         ∧ (∀ k o, k ∈ tokenProfiles → u !! k = Some (VObj o) →
                   o !! "tokens" = None)
         ∧ ∃ u0, userData a = VObj u0
             ∧ (∀ k, k ∉ ["stravaTokens"; "urlToken"] ++ tokenProfiles →
                     u !! k = u0 !! k)
             ∧ (∀ k, k ∈ tokenProfiles →
                     u !! k = match u0 !! k with
                              | Some (VObj o) => Some (VObj (delete "tokens" o))
                              | other => other
                              end))
      ∧ (∀ k, k ∈ compositeEntries → is_Some (data !! k))
      ∧ (∀ k v, data !! k = Some v → truthy v = false ∨ ownValues v ≠ 0%nat)
      ∧ (∀ k v, k ≠ "User" →
                data !! k = Some v ↔ collect a !! k = Some v ∧ kept v = true).
Proof.
  unfold archiveData. split.
  - unfold removeSensitive. by destruct (userData a).
  - intros data Hdata.
    destruct (removeSensitive (userData a)) as [user |] eqn:Euser; [| done].
    apply (inj Some) in Hdata. subst data. unfold cleanup.
    split; [| split; [| split]].
    + intros u [Hu _]%map_lookup_filter_Some.
      rewrite lookup_insert_eq in Hu. injection Hu as ->.
      unfold removeSensitive in Euser.
      destruct (userData a) as [| | | | | | | u0 |]; try done.
      injection Euser as <-.
      split; [| split; [| split]].
      * rewrite sanitized_other by (unfold tokenProfiles; solve_notin).
        rewrite lookup_delete_ne by done. apply lookup_delete_eq.
      * rewrite sanitized_other by (unfold tokenProfiles; solve_notin).
        apply lookup_delete_eq.
      * intros k o Hk. rewrite sanitized_profile by done.
        destruct (u0 !! k) as [[| | | | | | | o0 |] |]; try done.
        intros [= <-]. apply lookup_delete_eq.
      * exists u0. split; [done |]. split.
        -- intros k Hk. apply not_elem_of_app in Hk as [Hk Hprofile].
           split_notin Hk. rewrite sanitized_other by done.
           by rewrite !lookup_delete_ne by done.
        -- intros k Hk. by apply sanitized_profile.
    + intros k Hk. destruct (collect_composite a k Hk) as (v & Hv & Hkept).
      exists v. apply map_lookup_filter_Some. split; [| done].
      rewrite lookup_insert_ne; [done |].
      intros <-. unfold compositeEntries in Hk.
      by repeat (apply elem_of_cons in Hk as [? | Hk]; [done |]);
        apply elem_of_nil in Hk.
    + intros k v [_ Hkept]%map_lookup_filter_Some. cbn [snd] in Hkept.
      unfold kept in Hkept. apply orb_prop in Hkept as [Hf | Hown].
      * left. by apply negb_true_iff.
      * right. apply negb_true_iff in Hown. by apply Nat.eqb_neq.
    + intros k v Hne. rewrite map_lookup_filter_Some.
      by rewrite lookup_insert_ne.
Qed.
End Archive.

End FitParser.
